(** * Matrix 3D Heightmap Chart: a shallow embedding of [src/matrix-hm.js]

    The widget keeps a grid of normalised heights, mirrors it into a
    three.js scene and reports edits to an [onChange] observer.  This file
    embeds the grid model, the value conversions, the [setData] / [setValue]
    API and the Z-axis tick generation, and states the properties of the
    specification against them.

    Modelling conventions.
    - A JavaScript number is a [number]: an exact rational, [+Infinity],
      [-Infinity] or [NaN].  Arithmetic on finite values is exact: the
      rounding of binary64, its overflow to an infinity and the sign of zero
      are not represented (a zero divisor is [+0], which is what
      [maxZ - minZ] yields for equal finite bounds other than zero).  For
      that reason a general statement names a computed value by the
      expression that computes it, or follows from the comparisons the code
      makes; how far the binary64 result is from the exact one is not a
      subject of this file.  Results are kept in lowest terms so that
      concrete runs can be compared syntactically; general statements
      compare rationals with [==].
    - Mutation of [this] is explicit state passing over the record [widget];
      a call ends in a [result]: normal completion, or a thrown exception
      together with the state reached when it was thrown.
    - The three.js objects are represented by what the widget writes into
      them: the height of every pivot, the [z] of every geometry vertex and
      the colour attached to every vertex.  The plane geometry is taken to
      have one vertex per grid cell, in row-major order, which is how
      [_getIndexFromCoordinates] addresses it.
    - The [onChange] observer is a function from its four arguments to an
      outcome (it returns or it raises); every invocation is appended to the
      ghost field [notified]. *)

From Stdlib Require Import String ZArith QArith Qround Qabs List Bool Lia Lqa.
Import ListNotations.

Set Implicit Arguments.

(** ** JavaScript numbers *)

Module JsNumber.

Inductive number : Type :=
| Fin (q : Q)
| PosInf
| NegInf
| NaN.

(** Finite result of an arithmetic operation, in lowest terms. *)
Definition fin (q : Q) : number := Fin (Qred q).

Definition neg (a : number) : number :=
  match a with
  | Fin q => fin (- q)
  | PosInf => NegInf
  | NegInf => PosInf
  | NaN => NaN
  end.

Definition add (a b : number) : number :=
  match a, b with
  | NaN, _ | _, NaN => NaN
  | Fin p, Fin q => fin (p + q)
  | PosInf, NegInf | NegInf, PosInf => NaN
  | PosInf, _ | _, PosInf => PosInf
  | NegInf, _ | _, NegInf => NegInf
  end.

Definition sub (a b : number) : number := add a (neg b).

(** [inf * p] for a finite [p]: the sign of [p] decides, and [0 * inf] is
    [NaN]. *)
Definition scale_inf (inf : number) (p : Q) : number :=
  match p ?= 0 with
  | Eq => NaN
  | Gt => inf
  | Lt => neg inf
  end.

Definition mul (a b : number) : number :=
  match a, b with
  | NaN, _ | _, NaN => NaN
  | Fin p, Fin q => fin (p * q)
  | Fin p, PosInf | PosInf, Fin p => scale_inf PosInf p
  | Fin p, NegInf | NegInf, Fin p => scale_inf NegInf p
  | PosInf, PosInf | NegInf, NegInf => PosInf
  | PosInf, NegInf | NegInf, PosInf => NegInf
  end.

(** Division.  A finite value divided by zero is an infinity of the sign of
    the dividend, and [0 / 0] is [NaN]. *)
Definition div (a b : number) : number :=
  match a, b with
  | NaN, _ | _, NaN => NaN
  | Fin p, Fin q =>
      match q ?= 0 with
      | Eq => match p ?= 0 with
              | Eq => NaN
              | Gt => PosInf
              | Lt => NegInf
              end
      | _ => fin (p / q)
      end
  | Fin _, _ => Fin 0
  | PosInf, Fin q => match q ?= 0 with Lt => NegInf | _ => PosInf end
  | NegInf, Fin q => match q ?= 0 with Lt => PosInf | _ => NegInf end
  | _, _ => NaN
  end.

(** [a < b]; every comparison with [NaN] is false. *)
Definition lt (a b : number) : bool :=
  match a, b with
  | NaN, _ | _, NaN => false
  | Fin p, Fin q => match p ?= q with Lt => true | _ => false end
  | NegInf, NegInf => false
  | NegInf, _ => true
  | _, PosInf => match a with PosInf => false | _ => true end
  | _, _ => false
  end.

Definition gt (a b : number) : bool := lt b a.

(** [Math.round]: the nearest integer, ties towards [+Infinity]. *)
Definition round (a : number) : number :=
  match a with
  | Fin q => Fin (inject_Z (Qfloor (q + (1 # 2))))
  | _ => a
  end.

Definition is_nan (a : number) : bool :=
  match a with NaN => true | _ => false end.

(** [lo <= a <= hi] for a finite [a]. *)
Definition between (lo hi : Q) (a : number) : Prop :=
  match a with
  | Fin q => lo <= q /\ q <= hi
  | _ => False
  end.

End JsNumber.

Import JsNumber.

(** ** Arrays, exceptions and loops *)

(** [a[i]] for a JavaScript index: [undefined] (here [None]) outside
    [0 .. length-1]. *)
Definition lookupZ {A : Type} (l : list A) (i : Z) : option A :=
  if (i <? 0)%Z then None else nth_error l (Z.to_nat i).

(** In-place update of the element at an index that is known to exist. *)
Fixpoint alter {A : Type} (f : A -> A) (n : nat) (l : list A) : list A :=
  match l, n with
  | [], _ => []
  | a :: l', O => f a :: l'
  | a :: l', S n' => a :: alter f n' l'
  end.

Definition alterZ {A : Type} (f : A -> A) (i : Z) (l : list A) : list A :=
  if (i <? 0)%Z then l else alter f (Z.to_nat i) l.

(** An exception is identified by the [name] of the error object. *)
Inductive exn : Type := JsError (name : string).

Definition TypeError : exn := JsError "TypeError".

(** [for (var i = start; i < start + n; i++) body]: the state after the
    loop together with the final value of the loop variable, or the first
    exception raised by the body. *)
Fixpoint for_loop {S : Type} (n : nat) (i : Z) (body : Z -> S -> exn + S)
    (s : S) : exn + (Z * S) :=
  match n with
  | O => inr (i, s)
  | Datatypes.S n' =>
      match body i s with
      | inl e => inl e
      | inr s' => for_loop n' (i + 1)%Z body s'
      end
  end.

(** An array filled in index order by a loop [for (var i = 0; i < n; i++)]
    whose body may throw; with the final value of [i]. *)
Definition fill {A : Type} (n : nat) (f : Z -> exn + A)
    : exn + (Z * list A) :=
  for_loop n 0%Z
    (fun i acc => match f i with
                  | inl e => inl e
                  | inr a => inr (acc ++ [a])
                  end) [].

Definition buildM {A : Type} (n : nat) (f : Z -> exn + A) : exn + list A :=
  match fill n f with
  | inl e => inl e
  | inr (_, l) => inr l
  end.

(** The same for a body that cannot throw. *)
Definition build {A : Type} (n : nat) (f : Z -> A) : list A :=
  map (fun i => f (Z.of_nat i)) (seq 0 n).

(** ** The widget *)

(** The template literal [hsl(${h}, s%, l%)]. *)
Record colour : Type := hsl { hue : number; saturation : Z; lightness : Z }.

Record cell : Type := mkCell {
  value : number;
  color : colour;
  fadedColor : option colour
}.

(** A pivot mesh and its selection sphere: the heights the widget writes. *)
Record pivot : Type := mkPivot { positionY : number; selectionY : number }.

(** The plane geometry: the [z] of every vertex and the colour of every
    vertex as assigned to the face corners. *)
Record geometry : Type := mkGeometry {
  vertices : list number;
  vertexColors : list colour
}.

Inductive cb_outcome : Type := Returns | Raises (e : exn).

Definition callback : Type :=
  Z -> Z -> number -> list (list number) -> cb_outcome.

(** One invocation of the [onChange] observer. *)
Record notification : Type := mkNotification {
  cb_x : Z;
  cb_y : Z;
  cb_value : number;
  cb_data : list (list number)
}.

Record widget : Type := mkWidget {
  minZ : number;
  maxZ : number;
  XAxisNames : list string;
  YAxisNames : list string;
  mX : nat;
  mY : nat;
  matrix : list (list cell);
  objectGeometry : option geometry;
  object : bool;                        (* [this.object] has been built *)
  vertexPivots : option (list (list pivot));
  onMatrixDataChange : option callback;
  notified : list notification          (* ghost: calls made to the observer *)
}.

Definition set_matrix (m : list (list cell)) (w : widget) : widget :=
  mkWidget (minZ w) (maxZ w) (XAxisNames w) (YAxisNames w) (mX w) (mY w)
    m (objectGeometry w) (object w) (vertexPivots w)
    (onMatrixDataChange w) (notified w).

Definition set_objectGeometry (g : option geometry) (w : widget) : widget :=
  mkWidget (minZ w) (maxZ w) (XAxisNames w) (YAxisNames w) (mX w) (mY w)
    (matrix w) g (object w) (vertexPivots w)
    (onMatrixDataChange w) (notified w).

Definition set_object (b : bool) (w : widget) : widget :=
  mkWidget (minZ w) (maxZ w) (XAxisNames w) (YAxisNames w) (mX w) (mY w)
    (matrix w) (objectGeometry w) b (vertexPivots w)
    (onMatrixDataChange w) (notified w).

Definition set_vertexPivots (p : option (list (list pivot))) (w : widget)
    : widget :=
  mkWidget (minZ w) (maxZ w) (XAxisNames w) (YAxisNames w) (mX w) (mY w)
    (matrix w) (objectGeometry w) (object w) p
    (onMatrixDataChange w) (notified w).

Definition set_onMatrixDataChange (c : option callback) (w : widget)
    : widget :=
  mkWidget (minZ w) (maxZ w) (XAxisNames w) (YAxisNames w) (mX w) (mY w)
    (matrix w) (objectGeometry w) (object w) (vertexPivots w)
    c (notified w).

Definition notify (n : notification) (w : widget) : widget :=
  mkWidget (minZ w) (maxZ w) (XAxisNames w) (YAxisNames w) (mX w) (mY w)
    (matrix w) (objectGeometry w) (object w) (vertexPivots w)
    (onMatrixDataChange w) (notified w ++ [n]).

(** How a call ends: normally, or by throwing; either way with the state
    reached. *)
Inductive result : Type :=
| Normal (w : widget)
| Throw (e : exn) (w : widget).

Definition bind (r : result) (k : widget -> result) : result :=
  match r with
  | Normal w => k w
  | Throw e w => Throw e w
  end.

Notation "r >>= k" := (bind r k) (at level 50, left associativity).

(** [try { body } catch (ex) { }] *)
Definition try_catch (body : result) : result :=
  match body with
  | Normal w => Normal w
  | Throw _ w => Normal w
  end.

Definition state_of (r : result) : widget :=
  match r with Normal w | Throw _ w => w end.

(** ** Utilities of the prototype *)

Record coordinates : Type := mkCoordinates { coord_y : Z; coord_x : Z }.

(** [{ y: Math.floor(index / this.mX), x: index % this.mX }], for the
    non-negative indices of a geometry with [mX > 0] columns. *)
Definition _getCoordinatesFromIndex (this : widget) (index : Z)
    : coordinates :=
  {| coord_y := (index / Z.of_nat (mX this))%Z;
     coord_x := (index mod Z.of_nat (mX this))%Z |}.

Definition _getIndexFromCoordinates (this : widget) (x y : Z) : Z :=
  (y * Z.of_nat (mX this) + x)%Z.

(** normalised -> external *)
Definition _convertValueForMatrix (this : widget) (v : number) : number :=
  add (mul v (sub (maxZ this) (minZ this))) (minZ this).

(** external -> normalised *)
Definition _convertValueFromMatrix (this : widget) (v : number) : number :=
  div (sub v (minZ this)) (sub (maxZ this) (minZ this)).

(** [this.matrix[y][x]], [None] when [this.matrix[y]] or the cell is
    [undefined]. *)
Definition cellAt (m : list (list cell)) (x y : Z) : option cell :=
  match lookupZ m y with
  | None => None
  | Some row => lookupZ row x
  end.

(** The two colours of a cell, from its value. *)
Definition paint (c : cell) : cell :=
  let h := sub (Fin 128) (mul (value c) (Fin 128)) in
  mkCell (value c) (hsl h 100 50) (Some (hsl h 75 75)).

Definition _setMatrixValueColor (x y : Z) (m : list (list cell))
    : list (list cell) :=
  match cellAt m x y with
  | Some _ => alterZ (alterZ paint x) y m
  | None => m
  end.

(** The two guarded assignments [if (v < 0) v = 0; if (v > 1) v = 1]. *)
Definition clamp01 (v : number) : number :=
  let v := if lt v (Fin 0) then Fin 0 else v in
  let v := if gt v (Fin 1) then Fin 1 else v in
  v.

(** [Math.round(v * 100000) / 100000] *)
Definition round5 (v : number) : number :=
  div (round (mul v (Fin 100000))) (Fin 100000).

(** ** Matrix *)

(** The cell stored at [(x, y)] by [_initMatrix]: the converted initial
    value when the data has one there and [0] otherwise, clamped, then
    painted by [_setMatrixValueColor] (which finds the cell just stored). *)
Definition init_cell (this : widget) (initialData : option (list (list number)))
    (x y : Z) : cell :=
  let v :=
    match initialData with
    | None => Fin 0
    | Some d =>
        match lookupZ d y with
        | None => Fin 0
        | Some row =>
            match lookupZ row x with
            | None => Fin 0
            | Some e => _convertValueFromMatrix this e
            end
        end
    end in
  paint (mkCell (clamp01 v) (hsl (Fin 0) 100 50) None).

Definition _initMatrix (initialData : option (list (list number)))
    (this : widget) : widget :=
  set_matrix
    (build (mY this) (fun y => build (mX this) (fun x =>
       init_cell this initialData x y)))
    this.

(** The [data] array of [_setValue]: one row per [y], one entry per [x],
    each the external value of the cell rounded to 5 decimals.  The loops
    are over [var y] and [var x]: the result carries their final values. *)
Definition data_row (this : widget) (y : Z) : exn + (Z * list number) :=
  fill (mX this)
    (fun x =>
       match cellAt (matrix this) x y with
       | None => inl TypeError
       | Some c => inr (round5 (_convertValueForMatrix this (value c)))
       end).

Definition data_rows (this : widget) (x0 : Z)
    : exn + (Z * (Z * list (list number))) :=
  for_loop (mY this) 0%Z
    (fun y (st : Z * list (list number)) =>
       match data_row this y with
       | inl e => inl e
       | inr (x, row) => inr (x, snd st ++ [row])
       end) (x0, []).

(** The first half of [_setValue]: [cell.value = value], the two clamping
    assignments (the caller passes the clamped [v]) and
    [_setMatrixValueColor(x, y)]. *)
Definition store (x y : Z) (v : number) (m : list (list cell))
    : list (list cell) :=
  _setMatrixValueColor x y
    (alterZ (alterZ (fun c => mkCell v (color c) (fadedColor c)) x) y m).

(** [if (this.vertexPivots) { ... }]: the pivot and its selection sphere
    follow the cell. *)
Definition move_pivot (x y : Z) (v : number) (this : widget) : result :=
  match vertexPivots this with
  | None => Normal this
  | Some ps =>
      match lookupZ ps y with
      | None => Throw TypeError this
      | Some prow =>
          match lookupZ prow x with
          | None => Throw TypeError this
          | Some _ =>
              Normal (set_vertexPivots
                (Some (alterZ (alterZ (fun _ => mkPivot v v) x) y ps)) this)
          end
      end
  end.

(** [if (this.object && ...) { ...vertices[index].z = cell.value }]: the
    children of [this.object] share [this.objectGeometry]. *)
Definition move_vertex (x y : Z) (v : number) (this : widget) : result :=
  if object this then
    match objectGeometry this with
    | None => Throw TypeError this
    | Some g =>
        let index := _getIndexFromCoordinates this x y in
        match lookupZ (vertices g) index with
        | None => Throw TypeError this
        | Some _ =>
            Normal (set_objectGeometry
              (Some (mkGeometry (alterZ (fun _ => v) index (vertices g))
                       (vertexColors g)))
              this)
        end
    end
  else Normal this.

(** [if (this.onMatrixDataChange) { try { ... } catch (ex) { } }].  The
    loops that build [data] are over [var y] and [var x], the parameters of
    [_setValue]: the observer is called with the values they are left
    with, and with the external value of the parameter [value]. *)
Definition report_change (x y : Z) (val : number) (this : widget) : result :=
  match onMatrixDataChange this with
  | None => Normal this
  | Some onChange =>
      try_catch
        match data_rows this x with
        | inl e => Throw e this
        | inr (y', (x', data)) =>
            let arg := round5 (_convertValueForMatrix this val) in
            let this := notify (mkNotification x' y' arg data) this in
            match onChange x' y' arg data with
            | Returns => Normal this
            | Raises e => Throw e this
            end
        end
  end.

(** [_setValue(x, y, value)] *)
Definition _setValue (x y : Z) (val : number) (this : widget) : result :=
  match cellAt (matrix this) x y with
  | None => Throw TypeError this
  | Some _ =>
      let v := clamp01 val in
      let this := set_matrix (store x y v (matrix this)) this in
      move_pivot x y v this
      >>= move_vertex x y v
      >>= report_change x y val
  end.

(** ** Chart *)

(** [_updateVertexColors]: every face corner takes the colour of the cell
    its vertex index denotes.  Represented per vertex index. *)
Definition _updateVertexColors (this : widget) : result :=
  match objectGeometry this with
  | None => Throw TypeError this
  | Some g =>
      match buildM (length (vertices g)) (fun index =>
              let coords := _getCoordinatesFromIndex this index in
              match cellAt (matrix this) (coord_x coords) (coord_y coords) with
              | None => inl TypeError
              | Some c => inr (color c)
              end) with
      | inl e => Throw e this
      | inr cols =>
          Normal (set_objectGeometry (Some (mkGeometry (vertices g) cols)) this)
      end
  end.

(** The heights written into the fresh plane geometry by [_computeChart]. *)
Definition chart_heights (this : widget) : exn + (Z * list number) :=
  for_loop (mY this) 0%Z
    (fun y zs =>
       match for_loop (mX this) 0%Z
               (fun x zs =>
                  let index := _getIndexFromCoordinates this x y in
                  match cellAt (matrix this) x y, lookupZ zs index with
                  | Some c, Some _ => inr (alterZ (fun _ => value c) index zs)
                  | _, _ => inl TypeError
                  end) zs with
       | inl e => inl e
       | inr (_, zs') => inr zs'
       end) (repeat (Fin 0) (mX this * mY this)).

(** The pivots created by [_computeChart], one per cell. *)
Definition chart_pivots (this : widget) : exn + list (list pivot) :=
  buildM (mY this) (fun y => buildM (mX this) (fun x =>
    match cellAt (matrix this) x y with
    | None => inl TypeError
    | Some c => inr (mkPivot (value c) (value c))
    end)).

(** [_computeChart]: geometry, vertex colours, pivots, then [this.object].
    (Planar positions, materials and the axis billboards are not
    represented.) *)
Definition _computeChart (this : widget) : result :=
  match chart_heights this with
  | inl e => Throw e this
  | inr (_, zs) =>
      _updateVertexColors (set_objectGeometry (Some (mkGeometry zs [])) this)
      >>= fun this =>
      match chart_pivots this with
      | inl e => Throw e this
      | inr ps => Normal (set_object true (set_vertexPivots (Some ps) this))
      end
  end.

(** The tick values of the Z axis built by [_makeZGridLine]. *)
Definition _makeZGridLine (this : widget) : list number :=
  let min := minZ this in
  let max := maxZ this in
  let resolution := Fin 10 in
  let increment := round (div (sub max min) resolution) in
  snd (Nat.iter 11
         (fun st : number * list number =>
            (sub (fst st) increment, snd st ++ [fst st]))
         (max, [])).

(** ** API *)

(** [setData]: [_initMatrix], then [_computeChart] (the chart size is the
    constant [MATRIX_SIZE] and only enters the planar layout). *)
Definition setData (matrixData : option (list (list number))) (this : widget)
    : result :=
  _computeChart (_initMatrix matrixData this).

(** [setValue(x, y, value)]: the normalised value goes to [_setValue], then
    all vertex colours are recomputed. *)
Definition setValue (x y : Z) (val : number) (this : widget) : result :=
  _setValue x y (_convertValueFromMatrix this val) this
  >>= _updateVertexColors.

Record axis_def : Type := mkAxis { axis_x : list string; axis_y : list string }.

(** The constructor argument (the container is a DOM concern). *)
Record params : Type := mkParams {
  p_min : number;
  p_max : number;
  p_axis : option axis_def;
  p_data : option (list (list number));
  p_onChange : option callback
}.

(** The constructor: the axis names (the defaults when [params.axis] is
    absent), their lengths, [setData(params.data)], and only then the
    registration of [params.onChange].  Camera, renderer, listeners and the
    animation loop are outside the model. *)
Definition MatrixHeightMap (p : params) : result :=
  let xs := match p_axis p with
            | Some a => axis_x a
            | None => ["A"; "B"; "C"; "D"; "E"]%string
            end in
  let ys := match p_axis p with
            | Some a => axis_y a
            | None => ["1"; "2"; "3"; "4"; "5"]%string
            end in
  let this := mkWidget (p_min p) (p_max p) xs ys (length xs) (length ys)
                [] None false None None [] in
  setData (p_data p) this >>= fun this =>
  Normal (set_onMatrixDataChange (p_onChange p) this).

(** ** The scenario widget of the specification

    [axis.x = ["A","B"]], [axis.y = ["1","2"]], [min = 0], [max = 100], no
    initial data, with a given observer. *)
Definition scenario_params (cb : option callback) : params :=
  mkParams (Fin 0) (Fin 100)
    (Some (mkAxis ["A"; "B"]%string ["1"; "2"]%string)) None cb.

Definition quiet : callback := fun _ _ _ _ => Returns.
Definition failing : callback := fun _ _ _ _ => Raises (JsError "Error").

Definition scenario (cb : option callback) : widget :=
  state_of (MatrixHeightMap (scenario_params cb)).

Definition values (w : widget) : list (list number) :=
  map (map value) (matrix w).

(** The same axes with another value range. *)
Definition ranged_params (lo hi : number) (cb : option callback) : params :=
  mkParams lo hi (Some (mkAxis ["A"; "B"]%string ["1"; "2"]%string)) None cb.

Definition ranged (lo hi : number) (cb : option callback) : widget :=
  state_of (MatrixHeightMap (ranged_params lo hi cb)).

(** The error the specification recommends for a coordinate outside the
    grid, and the policy it asks for: a silent no-op, or that error with the
    grid unchanged. *)
Definition OutOfRangeError : exn := JsError "OutOfRangeError".

Definition out_of_range_policy (before : widget) (r : result) : Prop :=
  (exists w', r = Normal w' /\ matrix w' = matrix before /\
              notified w' = notified before) \/
  (exists w', r = Throw OutOfRangeError w' /\ matrix w' = matrix before).

(** The error the specification names for a payload of the wrong size. *)
Definition DimensionMismatchError : exn := JsError "DimensionMismatchError".

(** ** Invariants and observations *)

Definition grid_shape {A : Type} (rows cols : nat) (m : list (list A))
    : Prop :=
  length m = rows /\ Forall (fun r => length r = cols) m.

Definition in_bounds (w : widget) (x y : Z) : Prop :=
  (0 <= x < Z.of_nat (mX w))%Z /\ (0 <= y < Z.of_nat (mY w))%Z.

(** The state of a constructed widget: the matrix, the pivots and the
    geometry all have the dimensions of the axes. *)
Record wf (w : widget) : Prop := mkWf {
  wf_matrix : grid_shape (mY w) (mX w) (matrix w);
  wf_geometry : exists g, objectGeometry w = Some g /\
                          length (vertices g) = (mX w * mY w)%nat;
  wf_pivots : exists ps, vertexPivots w = Some ps /\
                         grid_shape (mY w) (mX w) ps
}.

(** The configuration, which no operation changes. *)
Definition same_config (w w' : widget) : Prop :=
  minZ w' = minZ w /\ maxZ w' = maxZ w /\
  XAxisNames w' = XAxisNames w /\ YAxisNames w' = YAxisNames w /\
  mX w' = mX w /\ mY w' = mY w /\
  onMatrixDataChange w' = onMatrixDataChange w.

(** The external grid as [_setValue] builds it for the observer. *)
Definition externalData (w : widget) : exn + list (list number) :=
  match data_rows w 0%Z with
  | inl e => inl e
  | inr (_, (_, d)) => inr d
  end.

(** The same grid, read off the matrix. *)
Definition externalGrid (w : widget) : list (list number) :=
  map (map (fun c => round5 (_convertValueForMatrix w (value c)))) (matrix w).


(** ** Axis billboards *)

(** [this.MATRIX_SIZE], the value [setData] gives to [chartSizeX] and
    [chartSizeY]. *)
Definition MATRIX_SIZE : Z := 2.

(** The loop of [_makeGridLine] over the labels: label [i] is drawn at the
    vertical pixel offset [(i * offsetIncrement) + (offset * 0.5)]. *)
Fixpoint label_rows {A : Type} (offsetIncrement offset : number) (i : Z)
    (axisValues : list A) : list (A * number) :=
  match axisValues with
  | [] => []
  | a :: rest =>
      (a, add (mul (Fin (inject_Z i)) offsetIncrement)
              (mul offset (Fin (1 # 2))))
      :: label_rows offsetIncrement offset (i + 1)%Z rest
  end.

(** [_makeGridLine(axisValues, fontSize, width, height, ...)]: the labels
    with the vertical offsets they are drawn at, on a canvas that is
    [height * 1024] pixels high, for the positive integer heights the
    callers pass.  (Font, horizontal placement and the mesh are not
    represented.) *)
Definition _makeGridLine {A : Type} (axisValues : list A) (height : Z)
    : list (A * number) :=
  let offset := Fin 50 in
  let canvas_height := mul (Fin (inject_Z height)) (Fin 1024) in
  let offsetIncrement :=
    div (sub canvas_height offset)
        (sub (Fin (inject_Z (Z.of_nat (length axisValues)))) (Fin 1)) in
  label_rows offsetIncrement offset 0%Z axisValues.

(** The Y strip: the row names, on a canvas [chartSizeX] units high. *)
Definition _makeYGridLine (this : widget) : list (string * number) :=
  _makeGridLine (YAxisNames this) MATRIX_SIZE.

(** The X strip: a reversed copy of the column names, on a canvas
    [chartSizeY] units high. *)
Definition _makeXGridLine (this : widget) : list (string * number) :=
  _makeGridLine (rev (XAxisNames this)) MATRIX_SIZE.

(** ** Interaction *)

(** The widget together with the fields the event handlers and the frame
    callback use. *)
Record session : Type := mkSession {
  chart : widget;
  activePivotX : option Z;
  activePivotY : option Z;
  mouseDown : bool;
  cellSelected : bool;
  lastMouseY : number;                 (* [this.lastMouse.y] *)
  mouseX : number;                     (* [this.mouse.x] *)
  mouseY : number;                     (* [this.mouse.y] *)
  enableRotate : bool;                 (* [this.cameraControls.enableRotate] *)
  enablePan : bool                     (* [this.cameraControls.enablePan] *)
}.

(** The interaction fields as the constructor initialises them, before the
    first [_animate] frame, which it runs as its last statement and which
    may already pick the pivot under the initial pointer position. *)
Definition new_session (w : widget) : session :=
  mkSession w None None false false (Fin 0) (Fin 0) (Fin 0) true false.

Definition set_chart (w : widget) (s : session) : session :=
  mkSession w (activePivotX s) (activePivotY s) (mouseDown s)
    (cellSelected s) (lastMouseY s) (mouseX s) (mouseY s)
    (enableRotate s) (enablePan s).

Record mouse_event : Type := mkMouseEvent {
  clientX : number;
  clientY : number;
  button : Z
}.

Record key_event : Type := mkKeyEvent { ctrlKey : bool }.

(** The result of [canvasContainer.getBoundingClientRect()]. *)
Record rect : Type := mkRect {
  rect_x : number;
  rect_y : number;
  rect_width : number;
  rect_height : number
}.

(** How a handler ends. *)
Inductive outcome : Type :=
| Done (s : session)
| Failed (e : exn) (s : session).

Definition session_of (o : outcome) : session :=
  match o with Done s | Failed _ s => s end.

(** [this.vertexPivots[y][x]], [None] where the source would dereference
    [null] or [undefined]. *)
Definition pivotAt (w : widget) (x y : Z) : option pivot :=
  match vertexPivots w with
  | None => None
  | Some ps =>
      match lookupZ ps y with
      | None => None
      | Some prow => lookupZ prow x
      end
  end.

(** [_onMouseMoveEvent]: the pointer in normalised device coordinates, then,
    with an active pivot of the grid and the button down, one step of the
    drag. *)
Definition _onMouseMoveEvent (dims : rect) (event : mouse_event)
    (s : session) : outcome :=
  let mx := sub (mul (div (sub (clientX event) (rect_x dims))
                          (rect_width dims)) (Fin 2)) (Fin 1) in
  let my := add (mul (neg (div (sub (clientY event) (rect_y dims))
                               (rect_height dims))) (Fin 2)) (Fin 1) in
  let s := mkSession (chart s) (activePivotX s) (activePivotY s)
             (mouseDown s) (cellSelected s) (lastMouseY s) mx my
             (enableRotate s) (enablePan s) in
  match activePivotX s, activePivotY s with
  | Some ax, Some ay =>
      if ((0 <=? ax)%Z && (ax <? Z.of_nat (mX (chart s)))%Z &&
          (0 <=? ay)%Z && (ay <? Z.of_nat (mY (chart s)))%Z)%bool
      then
        if mouseDown s then
          let movementY := sub (clientY event) (lastMouseY s) in
          match pivotAt (chart s) ax ay with
          | None => Failed TypeError s
          | Some p =>
              let newValue :=
                sub (positionY p) (mul movementY (Fin (1 # 1000))) in
              match _setValue ax ay newValue (chart s) with
              | Throw e w => Failed e (set_chart w s)
              | Normal w =>
                  Done (mkSession w (activePivotX s) (activePivotY s)
                          (mouseDown s) true (clientY event)
                          (mouseX s) (mouseY s)
                          (enableRotate s) (enablePan s))
              end
          end
        else Done s
      else Done s
  | _, _ => Done s
  end.

(** [_onMouseDownEvent]: the primary button starts a press. *)
Definition _onMouseDownEvent (event : mouse_event) (s : session) : session :=
  if (button event =? 0)%Z then
    mkSession (chart s) (activePivotX s) (activePivotY s) true false
      (clientY event) (mouseX s) (mouseY s) (enableRotate s) (enablePan s)
  else s.

(** [_onMouseUpEvent]: the press ends; with an active pivot the cell is read
    and the vertex colours are recomputed. *)
Definition _onMouseUpEvent (event : mouse_event) (s : session) : outcome :=
  let s := mkSession (chart s) (activePivotX s) (activePivotY s) false
             (cellSelected s) (lastMouseY s) (mouseX s) (mouseY s)
             (enableRotate s) (enablePan s) in
  match activePivotX s, activePivotY s with
  | Some ax, Some ay =>
      match cellAt (matrix (chart s)) ax ay with
      | None => Failed TypeError s
      | Some _ =>
          match _updateVertexColors (chart s) with
          | Normal w => Done (set_chart w s)
          | Throw e w => Failed e (set_chart w s)
          end
      end
  | _, _ => Done s
  end.

Definition _onKeyDownEvent (event : key_event) (s : session) : session :=
  if ctrlKey event then
    mkSession (chart s) (activePivotX s) (activePivotY s) (mouseDown s)
      (cellSelected s) (lastMouseY s) (mouseX s) (mouseY s) false true
  else s.

Definition _onKeyUpEvent (event : key_event) (s : session) : session :=
  if negb (ctrlKey event) then
    mkSession (chart s) (activePivotX s) (activePivotY s) (mouseDown s)
      (cellSelected s) (lastMouseY s) (mouseX s) (mouseY s) true false
  else s.

(** The picking part of one [_animate] frame.  [hit] is the coordinate tag
    of the nearest selection sphere met by the ray, if any (the ray cast is
    the renderer's); [vertexPivotsSelection] has one sphere per pivot.
    (The opacity of the handles and the drawing are not represented.) *)
Definition _animate (hit : option (Z * Z)) (s : session) : session :=
  let selectable :=
    match vertexPivots (chart s) with
    | None => false
    | Some ps => (0 <? length (concat ps))%nat
    end in
  if (negb (mouseDown s) && selectable)%bool then
    match hit with
    | Some (hx, hy) =>
        mkSession (chart s) (Some hx) (Some hy) (mouseDown s)
          (cellSelected s) (lastMouseY s) (mouseX s) (mouseY s)
          (enableRotate s) (enablePan s)
    | None =>
        mkSession (chart s) None None (mouseDown s)
          (cellSelected s) (lastMouseY s) (mouseX s) (mouseY s)
          (enableRotate s) (enablePan s)
    end
  else s.

(** ** More invariants *)

(** [m[y][x]] for a nested array of any content. *)
Definition at2 {A : Type} (m : list (list A)) (x y : Z) : option A :=
  match lookupZ m y with
  | None => None
  | Some r => lookupZ r x
  end.

(** The colours of a cell are those of its value. *)
Definition painted (c : cell) : Prop := paint c = c.

Definition colours_fresh (w : widget) : Prop :=
  Forall (Forall painted) (matrix w).

(** [this.object.children[0].geometry.vertices[i].z] *)
Definition vertexAt (w : widget) (i : Z) : option number :=
  match objectGeometry w with
  | None => None
  | Some g => lookupZ (vertices g) i
  end.

(** The colour attached to vertex [i]. *)
Definition vertexColorAt (w : widget) (i : Z) : option colour :=
  match objectGeometry w with
  | None => None
  | Some g => lookupZ (vertexColors g) i
  end.

(** The pivots and the surface are at the heights of the matrix. *)
Definition scene_in_sync (w : widget) : Prop :=
  forall x y c, cellAt (matrix w) x y = Some c ->
    pivotAt w x y = Some (mkPivot (value c) (value c)) /\
    vertexAt w (_getIndexFromCoordinates w x y) = Some (value c).

(** Every vertex has the colour of its cell. *)
Definition colours_in_sync (w : widget) : Prop :=
  forall x y c, cellAt (matrix w) x y = Some c ->
    vertexColorAt w (_getIndexFromCoordinates w x y) = Some (color c).

(** A widget as the constructor and the API leave it. *)
Record built (w : widget) : Prop := mkBuilt {
  built_wf : wf w;
  built_object : object w = true;
  built_scene : scene_in_sync w;
  built_fresh : colours_fresh w
}.

(** Every stored value is a finite number between 0 and 1. *)
Definition all_clamped (w : widget) : Prop :=
  Forall (Forall (fun c => between 0 1 (value c))) (matrix w).

(** ** Sequences of calls and events *)

Inductive api_call : Type :=
| SetData (d : option (list (list number)))
| SetValue (x y : Z) (val : number).

Definition apply_call (c : api_call) (w : widget) : result :=
  match c with
  | SetData d => setData d w
  | SetValue x y val => setValue x y val w
  end.

(** A caller that makes the calls in turn, going on after an exception with
    the state the widget was left in. *)
Fixpoint run_calls (cs : list api_call) (w : widget) : widget :=
  match cs with
  | [] => w
  | c :: rest => run_calls rest (state_of (apply_call c w))
  end.

(** Data and calls whose normalised values, as the widget [w] computes
    them, are not [NaN]. *)
Definition normalised_data (w : widget) (d : option (list (list number)))
  : Prop :=
  match d with
  | None => True
  | Some g =>
      Forall (Forall (fun e => is_nan (_convertValueFromMatrix w e) = false)) g
  end.

Definition normalised_call (w : widget) (c : api_call) : Prop :=
  match c with
  | SetData d => normalised_data w d
  | SetValue _ _ val => is_nan (_convertValueFromMatrix w val) = false
  end.

Inductive key_action : Type :=
| KeyDown (e : key_event)
| KeyUp (e : key_event).

Definition key_step (s : session) (a : key_action) : session :=
  match a with
  | KeyDown e => _onKeyDownEvent e s
  | KeyUp e => _onKeyUpEvent e s
  end.

(** A session on the scenario widget in the middle of a press, the pivot of
    row 1, column 0 active, the pointer last seen at height 300. *)
Definition pressed_scenario : session :=
  mkSession (scenario None) (Some 0%Z) (Some 1%Z) true false (Fin 300)
    (Fin 0) (Fin 0) true false.

(** * Properties *)

Unset Implicit Arguments.

(** ** Arrays and loops *)

Section Arrays.
Context {A : Type}.
Implicit Types (l : list A) (i : Z) (n : nat).

Lemma lookupZ_Some_iff l i :
  (exists a, lookupZ l i = Some a) <-> (0 <= i < Z.of_nat (length l))%Z.
Proof.
  unfold lookupZ. destruct (Z.ltb_spec i 0).
  - split; [intros [a Ha]; discriminate | lia].
  - split.
    + intros [a Ha].
      assert (nth_error l (Z.to_nat i) <> None) as Hn by congruence.
      apply nth_error_Some in Hn. lia.
    + intros Hi. destruct (nth_error l (Z.to_nat i)) eqn:E; eauto.
      apply nth_error_None in E. lia.
Qed.

Lemma lookupZ_None_iff l i :
  lookupZ l i = None <-> (i < 0 \/ Z.of_nat (length l) <= i)%Z.
Proof.
  pose proof (lookupZ_Some_iff l i) as H.
  destruct (lookupZ l i) eqn:E.
  - split; [discriminate|]. intros Hi.
    assert (0 <= i < Z.of_nat (length l))%Z by (apply H; eauto). lia.
  - split; [|reflexivity]. intros _.
    destruct (Z.ltb_spec i 0); [lia|].
    destruct (Z.ltb_spec i (Z.of_nat (length l))); [|lia].
    destruct H as [_ H]. destruct H as [a Ha]; [lia|discriminate].
Qed.

Lemma lookupZ_of_nat l n : lookupZ l (Z.of_nat n) = nth_error l n.
Proof.
  unfold lookupZ. destruct (Z.ltb_spec (Z.of_nat n) 0); [lia|].
  now rewrite Nat2Z.id.
Qed.

Lemma length_alter (f : A -> A) n l : length (alter f n l) = length l.
Proof.
  revert n; induction l as [|a l IH]; intros [|n]; simpl; auto.
Qed.

Lemma nth_error_alter_eq (f : A -> A) n l :
  nth_error (alter f n l) n = option_map f (nth_error l n).
Proof.
  revert n; induction l as [|a l IH]; intros [|n]; simpl; auto.
Qed.

Lemma nth_error_alter_ne (f : A -> A) n k l :
  n <> k -> nth_error (alter f n l) k = nth_error l k.
Proof.
  revert n k; induction l as [|a l IH]; intros [|n] [|k] Hne; simpl; auto.
  congruence.
Qed.

Lemma length_alterZ (f : A -> A) i l : length (alterZ f i l) = length l.
Proof.
  unfold alterZ. destruct (i <? 0)%Z; auto using length_alter.
Qed.

Lemma lookupZ_alterZ_eq (f : A -> A) i l :
  lookupZ (alterZ f i l) i = option_map f (lookupZ l i).
Proof.
  unfold lookupZ, alterZ. destruct (i <? 0)%Z; auto.
  apply nth_error_alter_eq.
Qed.

Lemma lookupZ_alterZ_ne (f : A -> A) i j l :
  i <> j -> lookupZ (alterZ f i l) j = lookupZ l j.
Proof.
  intros Hne. unfold lookupZ, alterZ.
  destruct (Z.ltb_spec j 0); auto.
  destruct (Z.ltb_spec i 0); auto.
  apply nth_error_alter_ne. lia.
Qed.

Lemma Forall_alter (P : A -> Prop) (f : A -> A) n l :
  (forall a, P a -> P (f a)) -> Forall P l -> Forall P (alter f n l).
Proof.
  intros Hf. revert n; induction l as [|a l IH]; intros [|n] H; simpl; auto;
    inversion H; subst; constructor; auto.
Qed.

Lemma Forall_alterZ (P : A -> Prop) (f : A -> A) i l :
  (forall a, P a -> P (f a)) -> Forall P l -> Forall P (alterZ f i l).
Proof.
  intros. unfold alterZ. destruct (i <? 0)%Z; auto using Forall_alter.
Qed.

Lemma length_build n (f : Z -> A) : length (build n f) = n.
Proof. unfold build. now rewrite length_map, length_seq. Qed.

Lemma lookupZ_build n (f : Z -> A) i :
  (0 <= i < Z.of_nat n)%Z -> lookupZ (build n f) i = Some (f i).
Proof.
  intros Hi. unfold lookupZ, build.
  destruct (Z.ltb_spec i 0); [lia|].
  rewrite nth_error_map, nth_error_seq.
  destruct (Nat.ltb_spec (Z.to_nat i) n); [|lia].
  simpl. now rewrite Z2Nat.id by lia.
Qed.

Lemma build_ext n (f g : Z -> A) :
  (forall i, (0 <= i < Z.of_nat n)%Z -> f i = g i) -> build n f = build n g.
Proof.
  intros H. unfold build. apply map_ext_in. intros k Hk.
  apply in_seq in Hk. apply H. lia.
Qed.

(** Reading an array back by index rebuilds it. *)
Lemma build_lookup {B : Type} (F : A -> B) (g : Z -> B) l :
  (forall i a, lookupZ l i = Some a -> g i = F a) ->
  build (length l) g = map F l.
Proof.
  revert g. induction l as [|a l IH]; intros g Hg; [reflexivity|].
  unfold build. simpl. f_equal.
  - apply (Hg 0%Z). reflexivity.
  - rewrite <- seq_shift, map_map.
    rewrite <- (IH (fun i => g (i + 1)%Z)).
    { unfold build. apply map_ext. intros k. f_equal. lia. }
    intros i b Hb.
    apply Hg. unfold lookupZ in *.
    destruct (Z.ltb_spec i 0); [discriminate|].
    destruct (Z.ltb_spec (i + 1) 0); [lia|].
    replace (Z.to_nat (i + 1)) with (S (Z.to_nat i)) by lia. exact Hb.
Qed.
End Arrays.

Section Loops.
Context {S : Type}.

(** A loop whose body preserves an invariant and does not throw under it
    runs to completion. *)
Lemma for_loop_inv (P : S -> Prop) (body : Z -> S -> exn + S) n i s :
  P s ->
  (forall j t, (i <= j < i + Z.of_nat n)%Z -> P t ->
               exists t', body j t = inr t' /\ P t') ->
  exists s', for_loop n i body s = inr ((i + Z.of_nat n)%Z, s') /\ P s'.
Proof.
  revert i s. induction n as [|n IH]; intros i s Hs Hb.
  - simpl. exists s. split; auto. do 2 f_equal. lia.
  - simpl for_loop. destruct (Hb i s) as [t [Ht Pt]]; [lia|auto|].
    rewrite Ht. destruct (IH (i + 1)%Z t Pt) as [s' [Hs' Ps']].
    + intros j u Hj Pu. apply Hb; auto. lia.
    + exists s'. split; auto. rewrite Hs'. do 2 f_equal. lia.
Qed.
End Loops.

Lemma fill_from {A : Type} (f : Z -> exn + A) (g : Z -> A) n k acc :
  (forall i, (Z.of_nat k <= i < Z.of_nat (k + n))%Z -> f i = inr (g i)) ->
  for_loop n (Z.of_nat k)
    (fun i acc => match f i with
                  | inl e => inl e
                  | inr a => inr (acc ++ [a])
                  end) acc
  = inr (Z.of_nat (k + n),
         acc ++ map (fun i => g (Z.of_nat i)) (seq k n)).
Proof.
  revert k acc. induction n as [|n IH]; intros k acc H; simpl.
  - rewrite app_nil_r. do 2 f_equal. lia.
  - rewrite H by lia.
    replace (Z.of_nat k + 1)%Z with (Z.of_nat (Datatypes.S k)) by lia.
    rewrite IH by (intros i Hi; apply H; lia).
    rewrite <- app_assoc. simpl. do 2 f_equal. lia.
Qed.

Lemma fill_build {A : Type} n (f : Z -> exn + A) (g : Z -> A) :
  (forall i, (0 <= i < Z.of_nat n)%Z -> f i = inr (g i)) ->
  fill n f = inr (Z.of_nat n, build n g).
Proof.
  intros H. unfold fill. change 0%Z with (Z.of_nat 0).
  rewrite (fill_from f g n 0 []) by (intros i Hi; apply H; lia).
  reflexivity.
Qed.

Lemma buildM_build {A : Type} n (f : Z -> exn + A) (g : Z -> A) :
  (forall i, (0 <= i < Z.of_nat n)%Z -> f i = inr (g i)) ->
  buildM n f = inr (build n g).
Proof.
  intros H. unfold buildM. now rewrite (fill_build n f g H).
Qed.

(** The outer loop of the observer's data: the rows in order, and the value
    [var x] is left with. *)
Lemma rows_from (row : Z -> exn + (Z * list number)) (X : Z)
    (R : Z -> list number) n k x acc :
  (forall y, (Z.of_nat k <= y < Z.of_nat (k + n))%Z -> row y = inr (X, R y)) ->
  for_loop n (Z.of_nat k)
    (fun y (st : Z * list (list number)) =>
       match row y with
       | inl e => inl e
       | inr (x, r) => inr (x, snd st ++ [r])
       end) (x, acc)
  = inr (Z.of_nat (k + n),
         (match n with O => x | _ => X end,
          acc ++ map (fun i => R (Z.of_nat i)) (seq k n))).
Proof.
  revert k x acc. induction n as [|n IH]; intros k x acc H; simpl.
  - rewrite app_nil_r. do 2 f_equal. lia.
  - rewrite H by lia. simpl.
    replace (Z.of_nat k + 1)%Z with (Z.of_nat (Datatypes.S k)) by lia.
    rewrite IH by (intros i Hi; apply H; lia).
    rewrite <- app_assoc.
    assert (match n with O => X | _ => X end = X) as -> by (destruct n; auto).
    f_equal. f_equal. lia.
Qed.

(** ** Numbers *)

Lemma Qcompare_Lt_iff (p q : Q) : (p ?= q) = Lt <-> p < q.
Proof. symmetry. apply Qlt_alt. Qed.

Lemma Qcompare_Gt_iff (p q : Q) : (p ?= q) = Gt <-> q < p.
Proof. symmetry. apply Qgt_alt. Qed.

Lemma Qcompare_Eq_iff (p q : Q) : (p ?= q) = Eq <-> p == q.
Proof. symmetry. apply Qeq_alt. Qed.

Lemma lt_Fin (p q : Q) : lt (Fin p) (Fin q) = true <-> p < q.
Proof.
  simpl. rewrite <- Qcompare_Lt_iff.
  destruct (p ?= q); split; congruence.
Qed.

Lemma lt_Fin_false (p q : Q) : lt (Fin p) (Fin q) = false <-> q <= p.
Proof.
  pose proof (lt_Fin p q) as H. destruct (lt (Fin p) (Fin q)).
  - split; [discriminate|]. intros Hle.
    assert (p < q) by (apply H; reflexivity). lra.
  - split; [|reflexivity]. intros _.
    destruct (Qlt_le_dec p q) as [Hlt|Hle]; [|exact Hle].
    apply H in Hlt. discriminate.
Qed.

(** The clamp lands in [[0, 1]] on everything but [NaN], which it keeps. *)
Lemma clamp01_between (v : number) :
  is_nan v = false -> between 0 1 (clamp01 v).
Proof.
  destruct v as [q| | |]; intros Hn; try discriminate.
  - unfold clamp01. destruct (lt (Fin q) (Fin 0)) eqn:E0.
    + simpl. lra.
    + apply lt_Fin_false in E0.
      unfold gt. destruct (lt (Fin 1) (Fin q)) eqn:E1.
      * simpl. lra.
      * apply lt_Fin_false in E1. simpl. lra.
  - simpl. lra.
  - simpl. lra.
Qed.

Lemma sub_Fin (a b : Q) :
  exists q, sub (Fin a) (Fin b) = Fin q /\ q == a - b.
Proof.
  eexists. split; [reflexivity|]. now rewrite !Qred_correct.
Qed.

Lemma add_Fin (a b : Q) :
  exists q, add (Fin a) (Fin b) = Fin q /\ q == a + b.
Proof.
  eexists. split; [reflexivity|]. now rewrite !Qred_correct.
Qed.

Lemma mul_Fin (a b : Q) :
  exists q, mul (Fin a) (Fin b) = Fin q /\ q == a * b.
Proof.
  eexists. split; [reflexivity|]. now rewrite !Qred_correct.
Qed.

Lemma div_Fin (a b : Q) :
  ~ b == 0 -> exists q, div (Fin a) (Fin b) = Fin q /\ q == a / b.
Proof.
  intros Hb. simpl.
  destruct (b ?= 0) eqn:E.
  - apply Qcompare_Eq_iff in E. contradiction.
  - eexists. split; [reflexivity|]. now rewrite !Qred_correct.
  - eexists. split; [reflexivity|]. now rewrite !Qred_correct.
Qed.

(** Division by a zero divisor: the sign of the dividend decides. *)
Lemma div_Fin_zero (a b : Q) :
  b == 0 ->
  div (Fin a) (Fin b)
  = match a ?= 0 with Eq => NaN | Gt => PosInf | Lt => NegInf end.
Proof.
  intros Hb. simpl. apply Qcompare_Eq_iff in Hb. now rewrite Hb.
Qed.

(** ** Value conversions *)

Section Conversion.
Variable w : widget.
Variables lo hi : Q.
Hypothesis Hmin : minZ w = Fin lo.
Hypothesis Hmax : maxZ w = Fin hi.

(** With a degenerate range the division is by zero. *)
Lemma convertFrom_degenerate (e : Q) :
  hi == lo ->
  _convertValueFromMatrix w (Fin e)
  = match e ?= lo with Eq => NaN | Gt => PosInf | Lt => NegInf end.
Proof.
  intros Heq. unfold _convertValueFromMatrix. rewrite Hmin, Hmax.
  destruct (sub_Fin e lo) as [a [-> Ha]].
  destruct (sub_Fin hi lo) as [b [-> Hb]].
  rewrite div_Fin_zero by (rewrite Hb; lra).
  assert ((a ?= 0) = (e ?= lo)) as ->; [|reflexivity].
  destruct (e ?= lo) eqn:E.
  - apply -> Qcompare_Eq_iff in E. apply Qcompare_Eq_iff. lra.
  - apply -> Qcompare_Lt_iff in E. apply Qcompare_Lt_iff. lra.
  - apply -> Qcompare_Gt_iff in E. apply Qcompare_Gt_iff. lra.
Qed.

End Conversion.

(** ** Grids *)

Section Grids.
Context {A : Type}.
Implicit Types (m : list (list A)).

Lemma shape_lookup rows cols m x y :
  grid_shape rows cols m ->
  (0 <= x < Z.of_nat cols)%Z -> (0 <= y < Z.of_nat rows)%Z ->
  exists r a, lookupZ m y = Some r /\ length r = cols /\
              lookupZ r x = Some a.
Proof.
  intros [Hr Hc] Hx Hy.
  destruct (proj2 (lookupZ_Some_iff m y)) as [r Hrow]; [lia|].
  assert (length r = cols) as Hlen.
  { rewrite Forall_forall in Hc. apply Hc.
    unfold lookupZ in Hrow. destruct (y <? 0)%Z; [discriminate|].
    eapply nth_error_In; eauto. }
  destruct (proj2 (lookupZ_Some_iff r x)) as [a Ha]; [lia|].
  eauto.
Qed.

Lemma shape_row rows cols m y r :
  grid_shape rows cols m -> lookupZ m y = Some r -> length r = cols.
Proof.
  intros [Hr Hc] Hrow. rewrite Forall_forall in Hc. apply Hc.
  unfold lookupZ in Hrow. destruct (y <? 0)%Z; [discriminate|].
  eapply nth_error_In; eauto.
Qed.

Lemma shape_alter rows cols m (f : A -> A) x y :
  grid_shape rows cols m ->
  grid_shape rows cols (alterZ (alterZ f x) y m).
Proof.
  intros [Hr Hc]. split.
  - now rewrite length_alterZ.
  - apply Forall_alterZ; auto. intros r Hlen. now rewrite length_alterZ.
Qed.

Lemma shape_build rows cols (f : Z -> Z -> A) :
  grid_shape rows cols (build rows (fun y => build cols (fun x => f x y))).
Proof.
  split; [apply length_build|].
  unfold build at 1. apply Forall_map, Forall_forall. intros k _.
  apply length_build.
Qed.
End Grids.

Lemma cellAt_in_shape rows cols (m : list (list cell)) x y :
  grid_shape rows cols m ->
  (0 <= x < Z.of_nat cols)%Z -> (0 <= y < Z.of_nat rows)%Z ->
  exists c, cellAt m x y = Some c.
Proof.
  intros Hs Hx Hy. destruct (shape_lookup _ _ _ _ _ Hs Hx Hy) as [r [a [Hr [_ Ha]]]].
  exists a. unfold cellAt. now rewrite Hr.
Qed.

Lemma cellAt_out_shape rows cols (m : list (list cell)) x y :
  grid_shape rows cols m ->
  (x < 0 \/ Z.of_nat cols <= x \/ y < 0 \/ Z.of_nat rows <= y)%Z ->
  cellAt m x y = None.
Proof.
  intros Hs Hout. unfold cellAt.
  destruct (lookupZ m y) as [r|] eqn:Hr; [|reflexivity].
  pose proof (shape_row _ _ _ _ _ Hs Hr) as Hlen.
  assert (0 <= y < Z.of_nat (length m))%Z as Hy
    by (apply lookupZ_Some_iff; eauto).
  destruct Hs as [Hrows _]. apply lookupZ_None_iff. lia.
Qed.

Lemma cellAt_alter_eq (f : cell -> cell) (m : list (list cell)) x y :
  cellAt (alterZ (alterZ f x) y m) x y = option_map f (cellAt m x y).
Proof.
  unfold cellAt. rewrite lookupZ_alterZ_eq.
  destruct (lookupZ m y) as [r|]; simpl; [|reflexivity].
  apply lookupZ_alterZ_eq.
Qed.

Lemma cellAt_alter_ne (f : cell -> cell) (m : list (list cell)) x y x' y' :
  (x, y) <> (x', y') ->
  cellAt (alterZ (alterZ f x) y m) x' y' = cellAt m x' y'.
Proof.
  intros Hne. unfold cellAt.
  destruct (Z.eq_dec y y') as [->|Hy].
  - rewrite lookupZ_alterZ_eq.
    destruct (lookupZ m y') as [r|]; simpl; [|reflexivity].
    apply lookupZ_alterZ_ne. congruence.
  - now rewrite lookupZ_alterZ_ne.
Qed.

Lemma cellAt_build rows cols (f : Z -> Z -> cell) x y :
  (0 <= x < Z.of_nat cols)%Z -> (0 <= y < Z.of_nat rows)%Z ->
  cellAt (build rows (fun y => build cols (fun x => f x y))) x y
  = Some (f x y).
Proof.
  intros Hx Hy. unfold cellAt.
  rewrite (lookupZ_build rows _ y Hy).
  exact (lookupZ_build cols (fun x0 => f x0 y) x Hx).
Qed.

(** ** The observer's data *)

Lemma data_row_ok (w : widget) (y : Z) (row : list cell) :
  length row = mX w ->
  lookupZ (matrix w) y = Some row ->
  data_row w y
  = inr (Z.of_nat (mX w),
         map (fun c => round5 (_convertValueForMatrix w (value c))) row).
Proof.
  intros Hlen Hrow. unfold data_row.
  set (ext := fun c => round5 (_convertValueForMatrix w (value c))).
  set (g := fun x => match lookupZ row x with
                     | Some c => ext c
                     | None => Fin 0
                     end).
  rewrite (fill_build _ _ g).
  - do 2 f_equal. rewrite <- Hlen. apply build_lookup.
    intros i a Ha. unfold g. now rewrite Ha.
  - intros i Hi. unfold cellAt, g. rewrite Hrow.
    destruct (proj2 (lookupZ_Some_iff row i)) as [c Hc]; [lia|].
    now rewrite Hc.
Qed.

Lemma data_rows_ok (w : widget) (x0 : Z) :
  grid_shape (mY w) (mX w) (matrix w) ->
  data_rows w x0
  = inr (Z.of_nat (mY w),
         (match mY w with O => x0 | _ => Z.of_nat (mX w) end,
          externalGrid w)).
Proof.
  intros Hs. unfold data_rows.
  set (ext := fun c => round5 (_convertValueForMatrix w (value c))).
  set (R := fun y => match lookupZ (matrix w) y with
                     | Some row => map ext row
                     | None => []
                     end).
  change 0%Z with (Z.of_nat 0).
  rewrite (rows_from (data_row w) (Z.of_nat (mX w)) R (mY w) 0 x0 []).
  - simpl app. do 3 f_equal. destruct Hs as [Hrows Hcols].
    change (build (mY w) R = externalGrid w).
    rewrite <- Hrows. apply build_lookup.
    intros i a Ha. unfold R. now rewrite Ha.
  - intros y Hy.
    destruct (proj2 (lookupZ_Some_iff (matrix w) y)) as [row Hrow].
    { destruct Hs as [Hrows _]. lia. }
    rewrite (data_row_ok w y row (shape_row _ _ _ _ _ Hs Hrow) Hrow).
    unfold R. now rewrite Hrow.
Qed.

Lemma externalData_ok (w : widget) :
  grid_shape (mY w) (mX w) (matrix w) ->
  externalData w = inr (externalGrid w).
Proof.
  intros Hs. unfold externalData. now rewrite data_rows_ok.
Qed.

(** ** Vertex colours *)

Lemma coordinates_in_range (w : widget) (index : Z) :
  (0 <= index < Z.of_nat (mX w * mY w))%Z ->
  (0 <= coord_x (_getCoordinatesFromIndex w index) < Z.of_nat (mX w))%Z /\
  (0 <= coord_y (_getCoordinatesFromIndex w index) < Z.of_nat (mY w))%Z.
Proof.
  intros Hi. simpl.
  assert (0 < Z.of_nat (mX w))%Z as Hpos by nia.
  split.
  - apply Z.mod_pos_bound. exact Hpos.
  - split.
    + apply Z.div_pos; lia.
    + apply Z.div_lt_upper_bound; nia.
Qed.

Lemma _updateVertexColors_ok (w : widget) (g : geometry) :
  grid_shape (mY w) (mX w) (matrix w) ->
  objectGeometry w = Some g ->
  length (vertices g) = (mX w * mY w)%nat ->
  exists cols,
    _updateVertexColors w
    = Normal (set_objectGeometry (Some (mkGeometry (vertices g) cols)) w).
Proof.
  intros Hs Hg Hlen. unfold _updateVertexColors. rewrite Hg.
  set (col := fun index =>
         match cellAt (matrix w)
                 (coord_x (_getCoordinatesFromIndex w index))
                 (coord_y (_getCoordinatesFromIndex w index)) with
         | Some c => color c
         | None => hsl (Fin 0) 100 50
         end).
  rewrite (buildM_build _ _ col).
  - eexists. reflexivity.
  - intros i Hi. rewrite Hlen in Hi.
    destruct (coordinates_in_range w i Hi) as [Hx Hy].
    destruct (cellAt_in_shape _ _ _ _ _ Hs Hx Hy) as [c Hc].
    unfold col. now rewrite Hc.
Qed.

(** ** [_setValue] and [setValue] *)

Ltac proj_simpl :=
  cbn [set_matrix set_vertexPivots set_objectGeometry set_object notify
       set_onMatrixDataChange matrix vertexPivots objectGeometry object
       onMatrixDataChange notified mX mY minZ maxZ XAxisNames YAxisNames
       bind try_catch] in *.

Lemma same_config_refl (w : widget) : same_config w w.
Proof. repeat split. Qed.

Lemma same_config_trans (w1 w2 w3 : widget) :
  same_config w1 w2 -> same_config w2 w3 -> same_config w1 w3.
Proof.
  unfold same_config. intros (A1 & A2 & A3 & A4 & A5 & A6 & A7)
    (B1 & B2 & B3 & B4 & B5 & B6 & B7).
  repeat split; congruence.
Qed.

Lemma store_shape (rows cols : nat) (x y : Z) (v : number)
    (m : list (list cell)) :
  grid_shape rows cols m -> grid_shape rows cols (store x y v m).
Proof.
  intros Hs. unfold store, _setMatrixValueColor.
  destruct (cellAt _ x y); auto using shape_alter.
Qed.

Lemma store_at (x y : Z) (v : number) (m : list (list cell)) (c : cell) :
  cellAt m x y = Some c ->
  cellAt (store x y v m) x y
  = Some (paint (mkCell v (color c) (fadedColor c))).
Proof.
  intros Hc. unfold store, _setMatrixValueColor.
  rewrite cellAt_alter_eq, Hc. simpl option_map. cbv iota.
  now rewrite !cellAt_alter_eq, Hc.
Qed.

Lemma store_elsewhere (x y x' y' : Z) (v : number) (m : list (list cell)) :
  (x, y) <> (x', y') ->
  cellAt (store x y v m) x' y' = cellAt m x' y'.
Proof.
  intros Hne. unfold store, _setMatrixValueColor.
  destruct (cellAt _ x y); now rewrite ?cellAt_alter_ne.
Qed.

Lemma move_pivot_ok (w : widget) (x y : Z) (v : number) :
  wf w -> in_bounds w x y ->
  exists ps', move_pivot x y v w = Normal (set_vertexPivots (Some ps') w) /\
              grid_shape (mY w) (mX w) ps'.
Proof.
  intros [_ _ [ps [Hps Hpshape]]] [Hx Hy].
  destruct (shape_lookup _ _ _ _ _ Hpshape Hx Hy) as [prow [p [Hprow [_ Hp]]]].
  unfold move_pivot. rewrite Hps, Hprow, Hp.
  eexists. split; [reflexivity|]. now apply shape_alter.
Qed.

Lemma move_vertex_ok (w : widget) (x y : Z) (v : number) :
  wf w -> in_bounds w x y ->
  exists w', move_vertex x y v w = Normal w' /\ wf w' /\
             same_config w w' /\ matrix w' = matrix w /\
             notified w' = notified w.
Proof.
  intros Hwf [Hx Hy]. pose proof Hwf as [Hm [g [Hg Hlen]] Hp].
  unfold move_vertex. destruct (object w) eqn:Hobj.
  - rewrite Hg.
    destruct (proj2 (lookupZ_Some_iff (vertices g)
                       (_getIndexFromCoordinates w x y))) as [z Hz].
    { rewrite Hlen. unfold _getIndexFromCoordinates. nia. }
    rewrite Hz. eexists. split; [reflexivity|].
    split; [|split; [repeat split|split; reflexivity]].
    constructor; proj_simpl; auto.
    eexists. split; [reflexivity|]. simpl. now rewrite length_alterZ.
  - exists w. auto using same_config_refl.
Qed.

Lemma report_change_ok (w : widget) (x y : Z) (val : number) :
  wf w -> in_bounds w x y ->
  exists w', report_change x y val w = Normal w' /\ wf w' /\
             same_config w w' /\ matrix w' = matrix w /\
             notified w' = notified w ++
               match onMatrixDataChange w with
               | None => []
               | Some _ =>
                   [mkNotification (Z.of_nat (mX w)) (Z.of_nat (mY w))
                      (round5 (_convertValueForMatrix w val))
                      (externalGrid w)]
               end.
Proof.
  intros Hwf [Hx Hy]. pose proof Hwf as [Hm Hg Hp].
  unfold report_change. destruct (onMatrixDataChange w) as [cb|] eqn:Hcb.
  - rewrite (data_rows_ok w x Hm).
    assert (match mY w with O => x | _ => Z.of_nat (mX w) end
            = Z.of_nat (mX w)) as -> by (destruct (mY w); [lia|reflexivity]).
    set (n := mkNotification _ _ _ _).
    exists (notify n w).
    split; [destruct (cb _ _ _ _); reflexivity|].
    split; [constructor; auto|].
    split; [repeat split; auto|]. split; reflexivity.
  - exists w. rewrite app_nil_r. auto using same_config_refl.
Qed.

Lemma wf_set_matrix (w : widget) (m : list (list cell)) :
  wf w -> grid_shape (mY w) (mX w) m -> wf (set_matrix m w).
Proof. intros [Hm Hg Hp] Hs. constructor; proj_simpl; auto. Qed.

Lemma wf_set_vertexPivots (w : widget) (ps : list (list pivot)) :
  wf w -> grid_shape (mY w) (mX w) ps -> wf (set_vertexPivots (Some ps) w).
Proof. intros [Hm Hg Hp] Hs. constructor; proj_simpl; eauto. Qed.

(** [_setValue] at a cell of the grid: it completes, stores the clamped
    value, keeps the invariant, and notifies a registered observer once,
    with the final values of the loop variables as coordinates. *)
Lemma _setValue_in_bounds (w : widget) (x y : Z) (val : number) :
  wf w -> in_bounds w x y ->
  exists w',
    _setValue x y val w = Normal w' /\ wf w' /\ same_config w w' /\
    matrix w' = store x y (clamp01 val) (matrix w) /\
    notified w' = notified w ++
      match onMatrixDataChange w with
      | None => []
      | Some _ =>
          [mkNotification (Z.of_nat (mX w)) (Z.of_nat (mY w))
             (round5 (_convertValueForMatrix w val)) (externalGrid w')]
      end.
Proof.
  intros Hwf Hin. pose proof Hwf as [Hm _ _]. pose proof Hin as [Hx Hy].
  destruct (cellAt_in_shape _ _ _ _ _ Hm Hx Hy) as [c Hc].
  unfold _setValue. rewrite Hc. cbv zeta.
  set (w1 := set_matrix (store x y (clamp01 val) (matrix w)) w).
  assert (Hwf1 : wf w1) by (apply wf_set_matrix; auto using store_shape).
  destruct (move_pivot_ok w1 x y (clamp01 val) Hwf1 Hin) as [ps [-> Hps]].
  set (w2 := set_vertexPivots (Some ps) w1).
  assert (Hwf2 : wf w2) by (apply wf_set_vertexPivots; auto).
  destruct (move_vertex_ok w2 x y (clamp01 val) Hwf2 Hin)
    as (w3 & E3 & Hwf3 & C3 & M3 & N3).
  cbn [bind]. rewrite E3. cbn [bind].
  assert (Hin3 : in_bounds w3 x y).
  { destruct C3 as (_ & _ & _ & _ & HX & HY & _).
    unfold in_bounds. rewrite HX, HY. exact Hin. }
  destruct (report_change_ok w3 x y val Hwf3 Hin3)
    as (w4 & E4 & Hwf4 & C4 & M4 & N4).
  exists w4. split; [exact E4|]. split; [exact Hwf4|].
  assert (C : same_config w w4).
  { apply same_config_trans with w3; [|exact C4].
    apply same_config_trans with w2; [|exact C3]. repeat split. }
  split; [exact C|]. split; [now rewrite M4, M3|].
  rewrite N4, N3.
  destruct C3 as (Hmin & Hmax & _ & _ & HX & HY & Hcb).
  rewrite Hcb, HX, HY. unfold w2, w1. proj_simpl.
  destruct (onMatrixDataChange w); [|reflexivity].
  do 3 f_equal.
  - unfold _convertValueForMatrix. now rewrite Hmin, Hmax.
  - unfold externalGrid, _convertValueForMatrix.
    destruct C4 as (Hmin4 & Hmax4 & _).
    now rewrite M4, Hmin4, Hmax4.
Qed.

(** [setValue] at a cell of the grid. *)
Lemma setValue_in_bounds (w : widget) (x y : Z) (val : number) :
  wf w -> in_bounds w x y ->
  exists w',
    setValue x y val w = Normal w' /\ wf w' /\ same_config w w' /\
    matrix w'
    = store x y (clamp01 (_convertValueFromMatrix w val)) (matrix w) /\
    notified w' = notified w ++
      match onMatrixDataChange w with
      | None => []
      | Some _ =>
          [mkNotification (Z.of_nat (mX w)) (Z.of_nat (mY w))
             (round5 (_convertValueForMatrix w
                        (_convertValueFromMatrix w val)))
             (externalGrid w')]
      end.
Proof.
  intros Hwf Hin.
  destruct (_setValue_in_bounds w x y (_convertValueFromMatrix w val) Hwf Hin)
    as (w1 & E1 & Hwf1 & C1 & M1 & N1).
  unfold setValue. rewrite E1. cbn [bind].
  pose proof Hwf1 as [Hm [g [Hg Hlen]] Hp].
  destruct (_updateVertexColors_ok w1 g Hm Hg Hlen) as [cols ->].
  eexists. split; [reflexivity|].
  split; [constructor; proj_simpl; eauto|].
  split.
  { apply same_config_trans with w1; [exact C1|]. repeat split. }
  split; [exact M1|]. exact N1.
Qed.

(** Outside the grid the first statements of [_setValue] dereference
    [undefined]: a [TypeError], before anything is written. *)
Lemma _setValue_out_of_bounds (w : widget) (x y : Z) (val : number) :
  grid_shape (mY w) (mX w) (matrix w) ->
  (x < 0 \/ Z.of_nat (mX w) <= x \/ y < 0 \/ Z.of_nat (mY w) <= y)%Z ->
  _setValue x y val w = Throw TypeError w.
Proof.
  intros Hs Hout. unfold _setValue.
  now rewrite (cellAt_out_shape _ _ _ _ _ Hs Hout).
Qed.

(** ** [setData] *)

Lemma chart_heights_ok (w : widget) :
  grid_shape (mY w) (mX w) (matrix w) ->
  exists i zs, chart_heights w = inr (i, zs) /\
               length zs = (mX w * mY w)%nat.
Proof.
  intros Hs. unfold chart_heights.
  set (P := fun zs : list number => length zs = (mX w * mY w)%nat).
  match goal with
  | |- exists i zs, for_loop ?n ?i0 ?body ?s = _ /\ _ =>
      destruct (for_loop_inv P body n i0 s) as [zs [E Hzs]]
  end.
  - unfold P. apply repeat_length.
  - intros y zs Hy Hzs.
    match goal with
    | |- exists t', match for_loop ?n ?i0 ?body ?s with _ => _ end = _ /\ _ =>
        destruct (for_loop_inv P body n i0 s) as [zs' [E' Hzs']]
    end.
    + exact Hzs.
    + intros x t Hx Ht.
      destruct (cellAt_in_shape _ _ _ x y Hs) as [c Hc]; [lia|lia|].
      rewrite Hc.
      destruct (proj2 (lookupZ_Some_iff t (_getIndexFromCoordinates w x y)))
        as [z Hz].
      { rewrite Ht. unfold _getIndexFromCoordinates. nia. }
      rewrite Hz. eexists. split; [reflexivity|].
      unfold P. now rewrite length_alterZ.
    + rewrite E'. eauto.
  - rewrite E. eauto.
Qed.

Lemma chart_pivots_ok (w : widget) :
  grid_shape (mY w) (mX w) (matrix w) ->
  exists ps, chart_pivots w = inr ps /\ grid_shape (mY w) (mX w) ps.
Proof.
  intros Hs. unfold chart_pivots.
  set (pv := fun x y => match cellAt (matrix w) x y with
                        | Some c => mkPivot (value c) (value c)
                        | None => mkPivot (Fin 0) (Fin 0)
                        end).
  exists (build (mY w) (fun y => build (mX w) (fun x => pv x y))).
  split; [|apply shape_build].
  apply buildM_build. intros y Hy.
  apply buildM_build. intros x Hx.
  destruct (cellAt_in_shape _ _ _ x y Hs Hx Hy) as [c Hc].
  unfold pv. now rewrite Hc.
Qed.

Lemma _computeChart_ok (w : widget) :
  grid_shape (mY w) (mX w) (matrix w) ->
  exists w', _computeChart w = Normal w' /\ wf w' /\ same_config w w' /\
             matrix w' = matrix w /\ notified w' = notified w.
Proof.
  intros Hs. unfold _computeChart.
  destruct (chart_heights_ok w Hs) as (i & zs & -> & Hzs).
  set (w1 := set_objectGeometry (Some (mkGeometry zs [])) w).
  destruct (_updateVertexColors_ok w1 (mkGeometry zs []) Hs eq_refl Hzs)
    as [cols ->].
  cbn [bind].
  set (w2 := set_objectGeometry _ w1).
  destruct (chart_pivots_ok w2 Hs) as (ps & -> & Hps).
  eexists. split; [reflexivity|].
  split; [|split; [repeat split|split; reflexivity]].
  constructor; proj_simpl; eauto.
  eexists. split; [reflexivity|]. exact Hzs.
Qed.

(** [setData] never throws: whatever the shape of the data, the matrix is
    rebuilt with the dimensions of the axes. *)
Lemma setData_ok (d : option (list (list number))) (w : widget) :
  exists w',
    setData d w = Normal w' /\ wf w' /\ same_config w w' /\
    matrix w' = build (mY w) (fun y => build (mX w) (fun x =>
                  init_cell w d x y)) /\
    notified w' = notified w.
Proof.
  unfold setData.
  destruct (_computeChart_ok (_initMatrix d w)) as (w' & E & Hwf & C & M & N).
  - unfold _initMatrix. proj_simpl. apply shape_build.
  - exists w'. split; [exact E|]. split; [exact Hwf|].
    split; [exact C|]. split; [exact M|exact N].
Qed.

(** The constructor returns a widget in the invariant, with the observer
    registered. *)
Lemma MatrixHeightMap_ok (p : params) :
  exists w,
    MatrixHeightMap p = Normal w /\ wf w /\
    minZ w = p_min p /\ maxZ w = p_max p /\
    onMatrixDataChange w = p_onChange p /\ notified w = [] /\
    XAxisNames w = match p_axis p with
                   | Some a => axis_x a
                   | None => ["A"; "B"; "C"; "D"; "E"]%string
                   end /\
    YAxisNames w = match p_axis p with
                   | Some a => axis_y a
                   | None => ["1"; "2"; "3"; "4"; "5"]%string
                   end /\
    mX w = length (XAxisNames w) /\ mY w = length (YAxisNames w).
Proof.
  unfold MatrixHeightMap.
  match goal with
  | |- exists w, (setData ?d ?w0 >>= _) = _ /\ _ =>
      destruct (setData_ok d w0) as (w1 & -> & Hwf & C & M & N)
  end.
  cbn [bind]. eexists. split; [reflexivity|].
  destruct C as (C1 & C2 & C3 & C4 & C5 & C6 & C7). proj_simpl.
  destruct Hwf as [Hm Hg Hp].
  split; [constructor; proj_simpl; auto|].
  repeat split; auto; congruence.
Qed.

(** ** The scenario widgets *)

Lemma constructed_wf (p : params) : wf (state_of (MatrixHeightMap p)).
Proof.
  destruct (MatrixHeightMap_ok p) as (w & -> & Hwf & _). exact Hwf.
Qed.

Lemma scenario_wf (cb : option callback) : wf (scenario cb).
Proof. apply constructed_wf. Qed.

Lemma ranged_wf (lo hi : number) (cb : option callback) :
  wf (ranged lo hi cb).
Proof. apply constructed_wf. Qed.

Lemma lookupZ_map {A B : Type} (f : A -> B) (l : list A) (i : Z) :
  lookupZ (map f l) i = option_map f (lookupZ l i).
Proof.
  unfold lookupZ. destruct (i <? 0)%Z; [reflexivity|].
  apply nth_error_map.
Qed.

Lemma convertFor_config (w w' : widget) (v : number) :
  same_config w w' ->
  _convertValueForMatrix w' v = _convertValueForMatrix w v.
Proof.
  intros (Hmin & Hmax & _). unfold _convertValueForMatrix.
  now rewrite Hmin, Hmax.
Qed.

Lemma convertFrom_config (w w' : widget) (v : number) :
  same_config w w' ->
  _convertValueFromMatrix w' v = _convertValueFromMatrix w v.
Proof.
  intros (Hmin & Hmax & _). unfold _convertValueFromMatrix.
  now rewrite Hmin, Hmax.
Qed.


(** * The claims *)

(** C1 (the code at the scenario of the claim).  On the 2 x 2 widget with
    range [0, 100] and no initial data, [setValue(0, 1, 50)] completes,
    stores normalised 1/2 at row 1, column 0, so that the external grid has
    50 there, and calls the registered observer exactly once, with value 50
    and that grid; but the coordinates it passes are (2, 2), the axis
    lengths left in [var x] and [var y] by the loops that build the grid,
    not the coordinates (0, 1) of the changed cell. *)
Theorem setValue_scenario_reports_loop_bounds (cb : callback) :
  exists w',
    setValue 0 1 (Fin 50) (scenario (Some cb)) = Normal w' /\
    values w' = [[Fin 0; Fin 0]; [Fin (1 # 2); Fin 0]] /\
    externalData w' = inr [[Fin 0; Fin 0]; [Fin 50; Fin 0]] /\
    notified w'
    = [mkNotification 2 2 (Fin 50) [[Fin 0; Fin 0]; [Fin 50; Fin 0]]] /\
    notified w'
    <> [mkNotification 0 1 (Fin 50) [[Fin 0; Fin 0]; [Fin 50; Fin 0]]].
Proof.
  destruct (setValue_in_bounds (scenario (Some cb)) 0 1 (Fin 50)
              (scenario_wf _)) as (w' & E & Hwf & C & M & N).
  { split; vm_compute; split; congruence. }
  exists w'. split; [exact E|].
  assert (V : values w' = [[Fin 0; Fin 0]; [Fin (1 # 2); Fin 0]]).
  { unfold values. rewrite M. vm_compute. reflexivity. }
  assert (G : externalGrid w' = [[Fin 0; Fin 0]; [Fin 50; Fin 0]]).
  { unfold externalGrid. rewrite M.
    assert (forall v, _convertValueForMatrix w' v
                      = _convertValueForMatrix (scenario (Some cb)) v) as Hc
      by (intros v; now apply convertFor_config).
    erewrite map_ext; [|intros r; apply map_ext; intros c; rewrite Hc;
                         reflexivity].
    vm_compute. reflexivity. }
  split; [exact V|]. split.
  - rewrite externalData_ok by apply Hwf. now rewrite G.
  - rewrite N, G. split; [vm_compute; reflexivity|].
    vm_compute. intros H. discriminate H.
Qed.

(** C2 (counterexample).  The two guarded assignments do not catch [NaN]:
    on the scenario widget [setValue(0, 1, NaN)] stores [NaN], and on the
    same axes with the degenerate range [100, 100] the finite call
    [setValue(0, 1, 100)] computes 0 / 0 and stores [NaN] as well.  Neither
    stored value lies in [[0, 1]]. *)
Lemma setValue_can_store_NaN :
  (exists w',
     setValue 0 1 NaN (scenario None) = Normal w' /\
     cellAt (matrix w') 0 1
     = Some (mkCell NaN (hsl NaN 100 50) (Some (hsl NaN 75 75))) /\
     ~ between 0 1 NaN) /\
  (exists w',
     setValue 0 1 (Fin 100) (ranged (Fin 100) (Fin 100) None) = Normal w' /\
     cellAt (matrix w') 0 1
     = Some (mkCell NaN (hsl NaN 100 50) (Some (hsl NaN 75 75)))).
Proof.
  split.
  - eexists. split; [vm_compute; reflexivity|].
    split; [vm_compute; reflexivity|]. simpl. tauto.
  - eexists. split; [vm_compute; reflexivity|]. vm_compute; reflexivity.
Qed.

(** C2 (amended).  At a cell of the grid, [_setValue] with any value other
    than [NaN], and [setValue] with any value whose normalised form is not
    [NaN], complete and leave the cell with a value between 0 and 1: the
    two comparisons of the clamp decide it, whatever the bounds are.  On
    the scenario widget [setValue(0, 1, 150)] stores normalised 1,
    external 100. *)
Theorem setValue_clamps (w : widget) (x y : Z) (val : number) :
  wf w -> in_bounds w x y ->
  (is_nan val = false ->
   exists w' c, _setValue x y val w = Normal w' /\
                cellAt (matrix w') x y = Some c /\ between 0 1 (value c)) /\
  (is_nan (_convertValueFromMatrix w val) = false ->
   exists w' c, setValue x y val w = Normal w' /\
                cellAt (matrix w') x y = Some c /\ between 0 1 (value c)) /\
  (forall cb, exists w',
     setValue 0 1 (Fin 150) (scenario cb) = Normal w' /\
     values w' = [[Fin 0; Fin 0]; [Fin 1; Fin 0]] /\
     externalData w' = inr [[Fin 0; Fin 0]; [Fin 100; Fin 0]]).
Proof.
  intros Hwf Hin. pose proof Hwf as [Hm _ _]. pose proof Hin as [Hx Hy].
  destruct (cellAt_in_shape _ _ _ _ _ Hm Hx Hy) as [c Hc].
  split; [|split].
  - intros Hn.
    destruct (_setValue_in_bounds w x y val Hwf Hin) as (w' & E & _ & _ & M & _).
    exists w'. eexists. split; [exact E|]. rewrite M.
    split; [apply (store_at _ _ _ _ _ Hc)|].
    simpl. now apply clamp01_between.
  - intros Hn.
    destruct (setValue_in_bounds w x y val Hwf Hin) as (w' & E & _ & _ & M & _).
    exists w'. eexists. split; [exact E|]. rewrite M.
    split; [apply (store_at _ _ _ _ _ Hc)|].
    simpl. now apply clamp01_between.
  - intros cb.
    destruct (setValue_in_bounds (scenario cb) 0 1 (Fin 150) (scenario_wf _))
      as (w' & E & Hwf' & C & M & _).
    { split; vm_compute; split; congruence. }
    exists w'. split; [exact E|].
    split; [unfold values; rewrite M; vm_compute; reflexivity|].
    rewrite externalData_ok by apply Hwf'.
    unfold externalGrid. rewrite M.
    erewrite map_ext;
      [|intros r; apply map_ext; intros c0;
        rewrite (convertFor_config _ _ _ C); reflexivity].
    vm_compute. reflexivity.
Qed.

Lemma setValue_clamps_witness :
  exists w' c,
    setValue 1 0 (Fin (-7)) (scenario None) = Normal w' /\
    cellAt (matrix w') 1 0 = Some c /\ between 0 1 (value c).
Proof.
  apply (setValue_clamps (scenario None) 1 0 (Fin (-7))).
  - apply scenario_wf.
  - split; vm_compute; split; congruence.
  - vm_compute. reflexivity.
Defined.


Lemma lookupZ_In {A : Type} (l : list A) (i : Z) (a : A) :
  lookupZ l i = Some a -> In a l.
Proof.
  unfold lookupZ. destruct (i <? 0)%Z; [discriminate|]. apply nth_error_In.
Qed.

(** What the clamp does with a normalised value, by the two comparisons
    alone. *)
Lemma clamp01_above (v : number) : gt v (Fin 1) = true -> clamp01 v = Fin 1.
Proof.
  unfold clamp01, gt. intros H.
  destruct v as [q| | |]; try discriminate H.
  - apply lt_Fin in H.
    assert (lt (Fin q) (Fin 0) = false) as -> by (apply lt_Fin_false; lra).
    assert (lt (Fin 1) (Fin q) = true) as -> by (apply lt_Fin; exact H).
    reflexivity.
  - reflexivity.
Qed.






(** C5 (counterexample).  On the 2 x 2 scenario widget, [setData] with a
    one-row grid raises nothing: it completes and replaces the grid, which
    was all zero and now holds the supplied row followed by a row of
    zeros. *)
Lemma setData_accepts_wrong_row_count :
  exists w',
    setData (Some [[Fin 50; Fin 50]]) (scenario None) = Normal w' /\
    (forall w'', setData (Some [[Fin 50; Fin 50]]) (scenario None)
                 <> Throw DimensionMismatchError w'') /\
    length [[Fin 50; Fin 50]] <> mY (scenario None) /\
    values (scenario None) = [[Fin 0; Fin 0]; [Fin 0; Fin 0]] /\
    values w' = [[Fin (1 # 2); Fin (1 # 2)]; [Fin 0; Fin 0]].
Proof.
  eexists. split; [vm_compute; reflexivity|].
  split; [intros w'' H; vm_compute in H; discriminate H|].
  split; [vm_compute; intros H; discriminate H|].
  split; vm_compute; reflexivity.
Qed.

(** C5 (amended).  [setData] has no dimension check and never raises:
    whatever the row and column counts of the payload, it completes and
    replaces the grid by one of the configured dimensions, in which a cell
    holds the clamped normalised payload entry when the payload has one at
    that position and 0 otherwise; rows and columns of the payload beyond
    the axes are ignored. *)
Theorem setData_never_rejects (d : list (list number)) (w : widget) :
  exists w',
    setData (Some d) w = Normal w' /\
    grid_shape (mY w) (mX w) (matrix w') /\
    (forall x y, in_bounds w x y ->
       exists c, cellAt (matrix w') x y = Some c /\
                 value c
                 = clamp01 match lookupZ d y with
                           | None => Fin 0
                           | Some row =>
                               match lookupZ row x with
                               | None => Fin 0
                               | Some e => _convertValueFromMatrix w e
                               end
                           end) /\
    (forall x y, in_bounds w x y -> (Z.of_nat (length d) <= y)%Z ->
       exists c, cellAt (matrix w') x y = Some c /\ value c = Fin 0).
Proof.
  destruct (setData_ok (Some d) w) as (w' & E & Hwf & C & M & _).
  exists w'. split; [exact E|].
  assert (Hcell : forall x y, in_bounds w x y ->
            cellAt (matrix w') x y = Some (init_cell w (Some d) x y)).
  { intros x y [Hx Hy]. rewrite M.
    apply (cellAt_build (mY w) (mX w) (fun x y => init_cell w (Some d) x y));
      assumption. }
  split; [|split].
  - rewrite M. apply shape_build.
  - intros x y Hin. eexists. split; [apply Hcell; exact Hin|].
    unfold init_cell. cbn [paint value].
    destruct (lookupZ d y) as [row|]; [|reflexivity].
    destruct (lookupZ row x); reflexivity.
  - intros x y Hin Hy. eexists. split; [apply Hcell; exact Hin|].
    unfold init_cell. cbn [paint value].
    assert (lookupZ d y = None) as -> by (apply lookupZ_None_iff; lia).
    reflexivity.
Qed.

(** C6.  With a registered observer that raises on every call, [setValue]
    at a cell of the grid still completes normally: the observer has been
    called, the cell holds the clamped normalised value and the two colours
    computed from it, the invariant holds, the observer stays registered,
    and any later [setValue] at a cell of the grid completes in the same
    way. *)
Theorem throwing_onChange_is_swallowed (w : widget) (cb : callback)
    (x y : Z) (val : number) :
  wf w -> in_bounds w x y ->
  onMatrixDataChange w = Some cb ->
  (forall a b v d, exists e, cb a b v d = Raises e) ->
  exists w' c,
    setValue x y val w = Normal w' /\
    cellAt (matrix w') x y = Some c /\
    value c = clamp01 (_convertValueFromMatrix w val) /\
    color c = hsl (sub (Fin 128) (mul (value c) (Fin 128))) 100 50 /\
    fadedColor c
    = Some (hsl (sub (Fin 128) (mul (value c) (Fin 128))) 75 75) /\
    length (notified w') = S (length (notified w)) /\
    wf w' /\ onMatrixDataChange w' = Some cb /\
    forall x2 y2 val2, in_bounds w' x2 y2 ->
      exists w'' c2,
        setValue x2 y2 val2 w' = Normal w'' /\
        cellAt (matrix w'') x2 y2 = Some c2 /\
        value c2 = clamp01 (_convertValueFromMatrix w' val2).
Proof.
  intros Hwf Hin Hcb _. pose proof Hwf as [Hm _ _]. pose proof Hin as [Hx Hy].
  destruct (cellAt_in_shape _ _ _ _ _ Hm Hx Hy) as [c Hc].
  destruct (setValue_in_bounds w x y val Hwf Hin)
    as (w' & E & Hwf' & C & M & N).
  exists w'. eexists. split; [exact E|].
  split; [rewrite M; apply (store_at _ _ _ _ _ Hc)|].
  cbn [paint value color fadedColor].
  split; [reflexivity|]. split; [reflexivity|]. split; [reflexivity|].
  split; [rewrite N, Hcb, length_app; simpl; lia|].
  split; [exact Hwf'|].
  split; [destruct C as (_ & _ & _ & _ & _ & _ & ->); exact Hcb|].
  intros x2 y2 val2 Hin2. pose proof Hwf' as [Hm' _ _].
  destruct Hin2 as [Hx2 Hy2].
  destruct (cellAt_in_shape _ _ _ _ _ Hm' Hx2 Hy2) as [c2 Hc2].
  destruct (setValue_in_bounds w' x2 y2 val2 Hwf' (conj Hx2 Hy2))
    as (w'' & E2 & _ & _ & M2 & _).
  exists w''. eexists. split; [exact E2|].
  split; [rewrite M2; apply (store_at _ _ _ _ _ Hc2)|]. reflexivity.
Qed.

Lemma throwing_onChange_is_swallowed_witness :
  exists w' c,
    setValue 0 1 (Fin 50) (scenario (Some failing)) = Normal w' /\
    cellAt (matrix w') 0 1 = Some c /\
    value c = clamp01 (_convertValueFromMatrix (scenario (Some failing))
                         (Fin 50)) /\
    color c = hsl (sub (Fin 128) (mul (value c) (Fin 128))) 100 50 /\
    fadedColor c
    = Some (hsl (sub (Fin 128) (mul (value c) (Fin 128))) 75 75) /\
    length (notified w') = S (length (notified (scenario (Some failing)))) /\
    wf w' /\ onMatrixDataChange w' = Some failing /\
    forall x2 y2 val2, in_bounds w' x2 y2 ->
      exists w'' c2,
        setValue x2 y2 val2 w' = Normal w'' /\
        cellAt (matrix w'') x2 y2 = Some c2 /\
        value c2 = clamp01 (_convertValueFromMatrix w' val2).
Proof.
  apply (throwing_onChange_is_swallowed (scenario (Some failing)) failing).
  - apply scenario_wf.
  - split; vm_compute; split; congruence.
  - reflexivity.
  - intros a b v d. eexists. reflexivity.
Defined.

(** C7 (counterexample).  The range [0, 0] is accepted by the constructor;
    the divisor [maxZ - minZ] is then 0, the external value 5 is normalised
    to [+Infinity] by a division by zero, and [setValue(0, 0, 5)] stores 1,
    not 0. *)
Lemma degenerate_range_is_not_guarded :
  exists w,
    MatrixHeightMap (ranged_params (Fin 0) (Fin 0) None) = Normal w /\
    sub (maxZ w) (minZ w) = Fin 0 /\
    _convertValueFromMatrix w (Fin 5) = PosInf /\
    exists w',
      setValue 0 0 (Fin 5) w = Normal w' /\
      values w' = [[Fin 1; Fin 0]; [Fin 0; Fin 0]].
Proof.
  eexists. split; [vm_compute; reflexivity|].
  split; [vm_compute; reflexivity|].
  split; [vm_compute; reflexivity|].
  eexists. split; vm_compute; reflexivity.
Qed.

(** C7 (amended).  With both bounds the same finite number other than
    zero, the constructor still returns a widget and the normaliser divides
    by zero: [setValue] at a cell of the grid with an external value above
    the bound normalises it to [+Infinity] and stores 1, with one below the
    bound normalises it to [-Infinity] and stores 0, and with the bound
    itself normalises it to [NaN] and stores [NaN].  (Bounds that are both
    zero are left out: the sign of the zero divisor then follows the signs
    of the two zeros.) *)
Theorem degenerate_range_divides_by_zero (p : params) (m m' e : Q)
    (x y : Z) :
  p_min p = Fin m -> p_max p = Fin m' -> m' == m -> ~ m == 0 ->
  exists w,
    MatrixHeightMap p = Normal w /\
    sub (maxZ w) (minZ w) = Fin 0 /\
    _convertValueFromMatrix w (Fin e)
    = match e ?= m with Eq => NaN | Gt => PosInf | Lt => NegInf end /\
    (in_bounds w x y ->
     exists w' c,
       setValue x y (Fin e) w = Normal w' /\
       cellAt (matrix w') x y = Some c /\
       value c = match e ?= m with Eq => NaN | Gt => Fin 1 | Lt => Fin 0 end).
Proof.
  intros Hmin Hmax Heq _.
  destruct (MatrixHeightMap_ok p) as (w & E & Hwf & Hlo & Hhi & _).
  rewrite Hmin in Hlo. rewrite Hmax in Hhi.
  exists w. split; [exact E|]. split; [|split].
  - rewrite Hlo, Hhi. unfold sub, add, neg, fin. f_equal.
    change 0 with (Qred 0). apply Qred_complete.
    rewrite Qred_correct, Heq. ring.
  - apply (convertFrom_degenerate w m m' Hlo Hhi e Heq).
  - intros Hin. pose proof Hwf as [Hm _ _]. pose proof Hin as [Hx Hy].
    destruct (cellAt_in_shape _ _ _ _ _ Hm Hx Hy) as [c Hc].
    destruct (setValue_in_bounds w x y (Fin e) Hwf Hin)
      as (w' & E' & _ & _ & M & _).
    exists w'. eexists. split; [exact E'|].
    split; [rewrite M; apply (store_at _ _ _ _ _ Hc)|].
    cbn [paint value].
    rewrite (convertFrom_degenerate w m m' Hlo Hhi e Heq).
    destruct (e ?= m); reflexivity.
Qed.

Lemma degenerate_range_divides_by_zero_witness :
  exists w,
    MatrixHeightMap (ranged_params (Fin 7) (Fin 7) None) = Normal w /\
    sub (maxZ w) (minZ w) = Fin 0 /\
    _convertValueFromMatrix w (Fin 9)
    = match 9 ?= 7 with Eq => NaN | Gt => PosInf | Lt => NegInf end /\
    (in_bounds w 1 0 ->
     exists w' c,
       setValue 1 0 (Fin 9) w = Normal w' /\
       cellAt (matrix w') 1 0 = Some c /\
       value c = match 9 ?= 7 with Eq => NaN | Gt => Fin 1 | Lt => Fin 0 end).
Proof.
  apply (degenerate_range_divides_by_zero
           (ranged_params (Fin 7) (Fin 7) None) 7 7 9 1 0).
  - reflexivity.
  - reflexivity.
  - reflexivity.
  - discriminate.
Defined.

(** C8 (counterexample).  On the scenario widget [setValue(2, 0, 50)], whose
    column is outside the grid, is not a silent no-op and does not raise an
    [OutOfRangeError]: it throws the [TypeError] of an assignment to a
    property of [undefined]. *)
Lemma out_of_bounds_setValue_throws_TypeError :
  setValue 2 0 (Fin 50) (scenario (Some quiet))
  = Throw TypeError (scenario (Some quiet)) /\
  ~ out_of_range_policy (scenario (Some quiet))
      (setValue 2 0 (Fin 50) (scenario (Some quiet))).
Proof.
  assert (E : setValue 2 0 (Fin 50) (scenario (Some quiet))
              = Throw TypeError (scenario (Some quiet)))
    by (vm_compute; reflexivity).
  split; [exact E|]. rewrite E.
  intros [(w' & H & _)|(w' & H & _)]; [discriminate H|].
  inversion H.
Qed.

(** C8 (amended).  For every coordinate outside the grid, [_setValue] and
    [setValue] throw a [TypeError] before anything is written: the state at
    the throw is the state before the call, so no cell has changed and the
    observer has not been called. *)
Theorem setValue_out_of_bounds (w : widget) (x y : Z) (val : number) :
  grid_shape (mY w) (mX w) (matrix w) ->
  (x < 0 \/ Z.of_nat (mX w) <= x \/ y < 0 \/ Z.of_nat (mY w) <= y)%Z ->
  _setValue x y val w = Throw TypeError w /\
  setValue x y val w = Throw TypeError w.
Proof.
  intros Hs Hout. split.
  - now apply _setValue_out_of_bounds.
  - unfold setValue. now rewrite _setValue_out_of_bounds.
Qed.

Lemma setValue_out_of_bounds_witness :
  _setValue 0 (-1) (Fin 50) (scenario (Some quiet))
  = Throw TypeError (scenario (Some quiet)) /\
  setValue 0 (-1) (Fin 50) (scenario (Some quiet))
  = Throw TypeError (scenario (Some quiet)).
Proof.
  apply (setValue_out_of_bounds (scenario (Some quiet)) 0 (-1) (Fin 50)).
  - split; [reflexivity|]. repeat constructor.
  - right. right. left. reflexivity.
Defined.

(** ** The Z axis *)

(** C9 (the code at two ranges that are not multiples of ten).  The
    decrement is [Math.round((max - min) / 10)], not [(max - min) / 10].
    With the range [0, 1] it is 0 and all 11 ticks are 1, so the last tick
    is not [min]; with the range [0, 25] it is 3, not 2.5, and the ticks
    run from 25 down to -5. *)
Lemma z_ticks_do_not_end_at_min :
  _makeZGridLine (ranged (Fin 0) (Fin 1) None) = repeat (Fin 1) 11 /\
  nth_error (_makeZGridLine (ranged (Fin 0) (Fin 1) None)) 10
  <> Some (minZ (ranged (Fin 0) (Fin 1) None)) /\
  _makeZGridLine (ranged (Fin 0) (Fin 25) None)
  = [Fin 25; Fin 22; Fin 19; Fin 16; Fin 13; Fin 10; Fin 7; Fin 4; Fin 1;
     Fin (-2); Fin (-5)].
Proof.
  split; [vm_compute; reflexivity|].
  split; [vm_compute; intros H; discriminate H|].
  vm_compute; reflexivity.
Qed.

(** C10.  When the constructor argument has no [axis], the widget takes the
    X names A to E and the Y names 1 to 5, so that the grid is 5 by 5,
    whatever the other fields are. *)
Theorem default_axes (lo hi : number) (d : option (list (list number)))
    (cb : option callback) :
  exists w,
    MatrixHeightMap (mkParams lo hi None d cb) = Normal w /\
    XAxisNames w = ["A"; "B"; "C"; "D"; "E"]%string /\
    YAxisNames w = ["1"; "2"; "3"; "4"; "5"]%string /\
    mX w = 5%nat /\ mY w = 5%nat /\
    grid_shape 5 5 (matrix w).
Proof.
  destruct (MatrixHeightMap_ok (mkParams lo hi None d cb))
    as (w & E & Hwf & _ & _ & _ & _ & HX & HY & HmX & HmY).
  cbn [p_axis] in HX, HY. rewrite HX in HmX. rewrite HY in HmY.
  exists w. split; [exact E|]. split; [exact HX|]. split; [exact HY|].
  split; [exact HmX|]. split; [exact HmY|].
  destruct Hwf as [Hm _ _]. rewrite HmX, HmY in Hm. exact Hm.
Qed.

(** * Further properties of the code *)

(** ** Indices and coordinates *)

Lemma index_decode (w : widget) (x y : Z) :
  (0 <= x < Z.of_nat (mX w))%Z ->
  _getCoordinatesFromIndex w (_getIndexFromCoordinates w x y)
  = mkCoordinates y x.
Proof.
  intros Hx. unfold _getCoordinatesFromIndex, _getIndexFromCoordinates.
  cbn [coord_x coord_y]. f_equal.
  - rewrite Z.div_add_l by lia. rewrite Z.div_small by lia. lia.
  - rewrite Z.add_comm, Z.mod_add by lia. apply Z.mod_small. lia.
Qed.

(** X1.  On a grid with at least one column, the vertex index of a
    coordinate in a column of the grid and a non-negative row decodes to
    that coordinate, and a non-negative index is the index of the
    coordinate it decodes to, whose column is inside the grid. *)
Theorem index_coordinates_round_trip (w : widget) (x y index : Z) :
  (0 <= x < Z.of_nat (mX w))%Z -> (0 <= y)%Z -> (0 <= index)%Z ->
  _getCoordinatesFromIndex w (_getIndexFromCoordinates w x y)
  = mkCoordinates y x /\
  _getIndexFromCoordinates w
    (coord_x (_getCoordinatesFromIndex w index))
    (coord_y (_getCoordinatesFromIndex w index)) = index /\
  (0 <= coord_x (_getCoordinatesFromIndex w index) < Z.of_nat (mX w))%Z.
Proof.
  intros Hx _ Hi. split; [now apply index_decode|].
  unfold _getCoordinatesFromIndex, _getIndexFromCoordinates.
  cbn [coord_x coord_y].
  set (n := Z.of_nat (mX w)) in *.
  assert (0 < n)%Z as Hn by lia.
  split.
  - rewrite (Z.div_mod index n) at 3 by lia. ring.
  - apply Z.mod_pos_bound. exact Hn.
Qed.

Lemma index_coordinates_round_trip_witness :
  _getCoordinatesFromIndex (scenario None)
    (_getIndexFromCoordinates (scenario None) 1 1)
  = mkCoordinates 1 1 /\
  _getIndexFromCoordinates (scenario None)
    (coord_x (_getCoordinatesFromIndex (scenario None) 3))
    (coord_y (_getCoordinatesFromIndex (scenario None) 3)) = 3%Z /\
  (0 <= coord_x (_getCoordinatesFromIndex (scenario None) 3)
   < Z.of_nat (mX (scenario None)))%Z.
Proof.
  apply (index_coordinates_round_trip (scenario None) 1 1 3).
  - vm_compute. split; congruence.
  - vm_compute. congruence.
  - vm_compute. congruence.
Defined.

(** ** Nested arrays *)

Section Nested.
Context {A : Type}.
Implicit Types (m : list (list A)).

Lemma at2_alter_eq (f : A -> A) m x y :
  at2 (alterZ (alterZ f x) y m) x y = option_map f (at2 m x y).
Proof.
  unfold at2. rewrite lookupZ_alterZ_eq.
  destruct (lookupZ m y) as [r|]; simpl; [|reflexivity].
  apply lookupZ_alterZ_eq.
Qed.

Lemma at2_alter_ne (f : A -> A) m x y x' y' :
  (x, y) <> (x', y') ->
  at2 (alterZ (alterZ f x) y m) x' y' = at2 m x' y'.
Proof.
  intros Hne. unfold at2.
  destruct (Z.eq_dec y y') as [->|Hy].
  - rewrite lookupZ_alterZ_eq.
    destruct (lookupZ m y') as [r|]; simpl; [|reflexivity].
    apply lookupZ_alterZ_ne. congruence.
  - now rewrite lookupZ_alterZ_ne.
Qed.

Lemma at2_build rows cols (f : Z -> Z -> A) x y :
  (0 <= x < Z.of_nat cols)%Z -> (0 <= y < Z.of_nat rows)%Z ->
  at2 (build rows (fun y => build cols (fun x => f x y))) x y
  = Some (f x y).
Proof.
  intros Hx Hy. unfold at2.
  rewrite (lookupZ_build rows _ y Hy).
  exact (lookupZ_build cols (fun x0 => f x0 y) x Hx).
Qed.

Lemma at2_in_shape rows cols m x y a :
  grid_shape rows cols m -> at2 m x y = Some a ->
  (0 <= x < Z.of_nat cols)%Z /\ (0 <= y < Z.of_nat rows)%Z.
Proof.
  intros Hs H. unfold at2 in H.
  destruct (lookupZ m y) as [r|] eqn:Hr; [|discriminate].
  pose proof (shape_row _ _ _ _ _ Hs Hr) as Hlen.
  assert (0 <= y < Z.of_nat (length m))%Z
    by (apply lookupZ_Some_iff; eauto).
  assert (0 <= x < Z.of_nat (length r))%Z
    by (apply lookupZ_Some_iff; eauto).
  destruct Hs as [Hrows _]. lia.
Qed.

(** Two grids of one shape with the same entries are equal. *)
Lemma grid_ext rows cols m1 m2 :
  grid_shape rows cols m1 -> grid_shape rows cols m2 ->
  (forall x y, (0 <= x < Z.of_nat cols)%Z -> (0 <= y < Z.of_nat rows)%Z ->
               at2 m1 x y = at2 m2 x y) ->
  m1 = m2.
Proof.
  intros H1 H2 Hext. apply nth_error_ext. intros j.
  destruct (Nat.lt_ge_cases j rows) as [Hj|Hj].
  - destruct (proj2 (lookupZ_Some_iff m1 (Z.of_nat j))) as [r1 Hr1];
      [destruct H1; lia|].
    destruct (proj2 (lookupZ_Some_iff m2 (Z.of_nat j))) as [r2 Hr2];
      [destruct H2; lia|].
    pose proof (shape_row _ _ _ _ _ H1 Hr1) as L1.
    pose proof (shape_row _ _ _ _ _ H2 Hr2) as L2.
    rewrite <- !lookupZ_of_nat, Hr1, Hr2. f_equal.
    apply nth_error_ext. intros i.
    destruct (Nat.lt_ge_cases i cols) as [Hi|Hi].
    + specialize (Hext (Z.of_nat i) (Z.of_nat j)).
      unfold at2 in Hext. rewrite Hr1, Hr2 in Hext.
      rewrite <- !lookupZ_of_nat. apply Hext; lia.
    + rewrite (proj2 (nth_error_None r1 i)) by lia.
      rewrite (proj2 (nth_error_None r2 i)) by lia. reflexivity.
  - destruct H1 as [R1 _], H2 as [R2 _].
    rewrite (proj2 (nth_error_None m1 j)) by lia.
    rewrite (proj2 (nth_error_None m2 j)) by lia. reflexivity.
Qed.
End Nested.

(** ** The scene built by [_computeChart] *)

Lemma for_loop_inv_idx {S : Type} (P : Z -> S -> Prop)
    (body : Z -> S -> exn + S) n i s :
  P i s ->
  (forall j t, (i <= j < i + Z.of_nat n)%Z -> P j t ->
               exists t', body j t = inr t' /\ P (j + 1)%Z t') ->
  exists s', for_loop n i body s = inr ((i + Z.of_nat n)%Z, s') /\
             P (i + Z.of_nat n)%Z s'.
Proof.
  revert i s. induction n as [|n IH]; intros i s Hs Hb.
  - simpl. exists s. replace (i + 0)%Z with i by lia. auto.
  - simpl for_loop. destruct (Hb i s) as [t [Ht Pt]]; [lia|auto|].
    rewrite Ht. destruct (IH (i + 1)%Z t Pt) as [s' [Hs' Ps']].
    + intros j u Hj Pu. apply Hb; auto. lia.
    + exists s'.
      replace (i + Z.of_nat (Datatypes.S n))%Z with (i + 1 + Z.of_nat n)%Z
        by lia.
      auto.
Qed.

Lemma cellAt_in_bounds (w : widget) (x y : Z) (c : cell) :
  grid_shape (mY w) (mX w) (matrix w) ->
  cellAt (matrix w) x y = Some c -> in_bounds w x y.
Proof.
  intros Hs Hc. exact (at2_in_shape _ _ _ _ _ _ Hs Hc).
Qed.

(** The fresh geometry takes the height of every cell at the cell's vertex
    index. *)
Lemma chart_heights_spec (w : widget) :
  grid_shape (mY w) (mX w) (matrix w) ->
  exists i zs,
    chart_heights w = inr (i, zs) /\
    length zs = (mX w * mY w)%nat /\
    forall x y c, cellAt (matrix w) x y = Some c ->
      lookupZ zs (_getIndexFromCoordinates w x y) = Some (value c).
Proof.
  intros Hs. unfold chart_heights.
  set (N := (mX w * mY w)%nat).
  set (P := fun (y : Z) (zs : list number) =>
    length zs = N /\
    forall x' y' c, (0 <= y' < y)%Z -> cellAt (matrix w) x' y' = Some c ->
      lookupZ zs (_getIndexFromCoordinates w x' y') = Some (value c)).
  match goal with
  | |- exists i zs, for_loop ?n ?i0 ?body ?s = _ /\ _ =>
      destruct (for_loop_inv_idx P body n i0 s) as [zs [E [Hlen Hzs]]]
  end.
  - split; [apply repeat_length|]. intros x' y' c Hy'. lia.
  - intros y zs Hy [Hlen Hrows].
    set (Q := fun (x : Z) (t : list number) =>
      length t = N /\
      (forall x' y' c, (0 <= y' < y)%Z -> cellAt (matrix w) x' y' = Some c ->
         lookupZ t (_getIndexFromCoordinates w x' y') = Some (value c)) /\
      (forall x' c, (0 <= x' < x)%Z -> cellAt (matrix w) x' y = Some c ->
         lookupZ t (_getIndexFromCoordinates w x' y) = Some (value c))).
    match goal with
    | |- exists t', match for_loop ?n ?i0 ?body ?s with _ => _ end = _ /\ _ =>
        destruct (for_loop_inv_idx Q body n i0 s) as [zs' [E' HQ]]
    end.
    + split; [exact Hlen|]. split; [exact Hrows|]. intros x' c Hx'. lia.
    + intros x t Hx (Ht & Hr & Hc).
      destruct (cellAt_in_shape _ _ _ x y Hs) as [c0 Hc0]; [lia|lia|].
      rewrite Hc0.
      destruct (proj2 (lookupZ_Some_iff t (_getIndexFromCoordinates w x y)))
        as [z Hz].
      { rewrite Ht. unfold N, _getIndexFromCoordinates. nia. }
      rewrite Hz. eexists. split; [reflexivity|].
      split; [now rewrite length_alterZ|]. split.
      * intros x' y' c Hy' Hcell.
        pose proof (cellAt_in_bounds w x' y' c Hs Hcell) as [Hx'b _].
        rewrite lookupZ_alterZ_ne; [now apply Hr|].
        unfold _getIndexFromCoordinates. nia.
      * intros x' c Hx' Hcell.
        destruct (Z.eq_dec x' x) as [->|Hne].
        -- rewrite lookupZ_alterZ_eq, Hz. simpl. congruence.
        -- rewrite lookupZ_alterZ_ne.
           ++ apply Hc; [lia|exact Hcell].
           ++ unfold _getIndexFromCoordinates. lia.
    + rewrite E'. eexists. split; [reflexivity|].
      destruct HQ as (Ht & Hr & Hc). split; [exact Ht|].
      intros x' y' c Hy' Hcell.
      destruct (Z.eq_dec y' y) as [->|Hne].
      * pose proof (cellAt_in_bounds w x' y c Hs Hcell) as [Hx'b _].
        apply Hc; [lia|exact Hcell].
      * apply Hr; [lia|exact Hcell].
  - rewrite E. do 2 eexists. split; [reflexivity|]. split; [exact Hlen|].
    intros x y c Hcell.
    pose proof (cellAt_in_bounds w x y c Hs Hcell) as [_ Hyb].
    apply (Hzs x y c); [lia|exact Hcell].
Qed.

(** [_updateVertexColors] gives every vertex the colour of its cell. *)
Lemma _updateVertexColors_spec (w : widget) (g : geometry) :
  grid_shape (mY w) (mX w) (matrix w) ->
  objectGeometry w = Some g ->
  length (vertices g) = (mX w * mY w)%nat ->
  exists cols,
    _updateVertexColors w
    = Normal (set_objectGeometry (Some (mkGeometry (vertices g) cols)) w) /\
    forall x y c, cellAt (matrix w) x y = Some c ->
      lookupZ cols (_getIndexFromCoordinates w x y) = Some (color c).
Proof.
  intros Hs Hg Hlen. unfold _updateVertexColors. rewrite Hg.
  set (col := fun index =>
         match cellAt (matrix w)
                 (coord_x (_getCoordinatesFromIndex w index))
                 (coord_y (_getCoordinatesFromIndex w index)) with
         | Some c => color c
         | None => hsl (Fin 0) 100 50
         end).
  rewrite (buildM_build _ _ col).
  - eexists. split; [reflexivity|]. intros x y c Hc.
    pose proof (cellAt_in_bounds w x y c Hs Hc) as [Hx Hy].
    rewrite lookupZ_build.
    + unfold col.
      rewrite (index_decode w x y Hx).
      cbn [coord_x coord_y]. now rewrite Hc.
    + rewrite Hlen. unfold _getIndexFromCoordinates. nia.
  - intros i Hi. rewrite Hlen in Hi.
    destruct (coordinates_in_range w i Hi) as [Hx Hy].
    destruct (cellAt_in_shape _ _ _ _ _ Hs Hx Hy) as [c Hc].
    unfold col. now rewrite Hc.
Qed.

(** ** Invariants of a built widget *)

Lemma paint_painted (c : cell) : painted (paint c).
Proof. reflexivity. Qed.

Lemma Forall2_grid {P : cell -> Prop} (m : list (list cell)) :
  Forall (Forall P) m <->
  (forall x y c, cellAt m x y = Some c -> P c).
Proof.
  split.
  - intros H x y c Hc. unfold cellAt in Hc.
    destruct (lookupZ m y) as [r|] eqn:Hr; [|discriminate].
    rewrite Forall_forall in H.
    pose proof (H r (lookupZ_In _ _ _ Hr)) as Hrow.
    rewrite Forall_forall in Hrow. apply Hrow. apply (lookupZ_In _ _ _ Hc).
  - intros H. apply Forall_forall. intros r Hr.
    apply Forall_forall. intros c Hc.
    destruct (In_nth_error _ _ Hr) as [j Hj].
    destruct (In_nth_error _ _ Hc) as [i Hi].
    apply (H (Z.of_nat i) (Z.of_nat j)). unfold cellAt.
    now rewrite lookupZ_of_nat, Hj, lookupZ_of_nat.
Qed.

(** [_setValue] at a cell of a built widget, field by field. *)
Lemma _setValue_fields (w : widget) (x y : Z) (val : number)
    (ps : list (list pivot)) (g : geometry) :
  wf w -> in_bounds w x y -> object w = true ->
  vertexPivots w = Some ps -> objectGeometry w = Some g ->
  exists w',
    _setValue x y val w = Normal w' /\
    same_config w w' /\ object w' = true /\
    matrix w' = store x y (clamp01 val) (matrix w) /\
    vertexPivots w'
    = Some (alterZ (alterZ (fun _ => mkPivot (clamp01 val) (clamp01 val)) x)
              y ps) /\
    objectGeometry w'
    = Some (mkGeometry
              (alterZ (fun _ => clamp01 val)
                 (_getIndexFromCoordinates w x y) (vertices g))
              (vertexColors g)).
Proof.
  intros Hwf Hin Hobj Hps Hg.
  pose proof Hwf as [Hm [g0 [Hg0 Hlen]] [ps0 [Hps0 Hpshape]]].
  rewrite Hg in Hg0. injection Hg0 as <-.
  rewrite Hps in Hps0. injection Hps0 as <-.
  pose proof Hin as [Hx Hy].
  destruct (cellAt_in_shape _ _ _ _ _ Hm Hx Hy) as [c Hc].
  destruct (shape_lookup _ _ _ _ _ Hpshape Hx Hy) as [prow [p [Hprow [_ Hp]]]].
  destruct (proj2 (lookupZ_Some_iff (vertices g)
                     (_getIndexFromCoordinates w x y))) as [z Hz].
  { rewrite Hlen. unfold _getIndexFromCoordinates. nia. }
  unfold _setValue. rewrite Hc. cbv zeta.
  unfold move_pivot. proj_simpl. rewrite Hps, Hprow, Hp. proj_simpl.
  unfold move_vertex. proj_simpl. rewrite Hobj, Hg.
  change (_getIndexFromCoordinates (set_vertexPivots _ (set_matrix _ w)) x y)
    with (_getIndexFromCoordinates w x y).
  cbv zeta. rewrite Hz. proj_simpl.
  unfold report_change. proj_simpl.
  destruct (onMatrixDataChange w) as [cb|] eqn:Hcb.
  - rewrite data_rows_ok by (proj_simpl; now apply store_shape).
    proj_simpl.
    match goal with
    | |- context [cb ?a ?b ?c ?d] => destruct (cb a b c d)
    end; proj_simpl;
      (eexists; split; [reflexivity|]; proj_simpl;
       repeat split; auto).
  - eexists. split; [reflexivity|]. proj_simpl. repeat split; auto.
Qed.

Lemma _computeChart_built (w : widget) :
  grid_shape (mY w) (mX w) (matrix w) -> colours_fresh w ->
  exists w',
    _computeChart w = Normal w' /\ built w' /\ colours_in_sync w' /\
    same_config w w' /\ matrix w' = matrix w /\ notified w' = notified w.
Proof.
  intros Hs Hfresh. unfold _computeChart.
  destruct (chart_heights_spec w Hs) as (i & zs & -> & Hzs & Hz).
  set (w1 := set_objectGeometry (Some (mkGeometry zs [])) w).
  destruct (_updateVertexColors_spec w1 (mkGeometry zs []) Hs eq_refl Hzs)
    as [cols [-> Hcols]].
  cbn [bind vertices].
  set (w2 := set_objectGeometry _ w1).
  unfold chart_pivots.
  set (pv := fun x y => match cellAt (matrix w) x y with
                        | Some c => mkPivot (value c) (value c)
                        | None => mkPivot (Fin 0) (Fin 0)
                        end).
  change (matrix w2) with (matrix w).
  change (mX w2) with (mX w). change (mY w2) with (mY w).
  rewrite (buildM_build _ _ (fun y => build (mX w) (fun x => pv x y))).
  2: { intros y Hy. apply buildM_build. intros x Hx.
       destruct (cellAt_in_shape _ _ _ x y Hs Hx Hy) as [c Hc].
       unfold pv. now rewrite Hc. }
  eexists. split; [reflexivity|].
  split; [|split; [|split; [repeat split|split; reflexivity]]].
  - constructor.
    + constructor; proj_simpl; auto.
      * eexists. split; [reflexivity|]. exact Hzs.
      * eexists. split; [reflexivity|]. apply shape_build.
    + reflexivity.
    + intros x y c Hc. unfold w2, w1 in Hc. proj_simpl.
      pose proof (cellAt_in_bounds w x y c Hs Hc) as [Hx Hy].
      split.
      * unfold pivotAt. proj_simpl.
        change (at2 (build (mY w) (fun y0 => build (mX w)
                       (fun x0 => pv x0 y0))) x y
                = Some (mkPivot (value c) (value c))).
        rewrite at2_build by assumption. unfold pv.
        unfold w2, w1 in Hc. proj_simpl. now rewrite Hc.
      * unfold vertexAt. proj_simpl. cbn [vertices]. now apply Hz.
    + exact Hfresh.
  - intros x y c Hc. unfold w2, w1 in Hc. unfold vertexColorAt. proj_simpl.
    cbn [vertexColors]. now apply Hcols.
Qed.

Lemma init_fresh (d : option (list (list number))) (w : widget) :
  colours_fresh (_initMatrix d w).
Proof.
  unfold colours_fresh, _initMatrix. proj_simpl. unfold build.
  apply Forall_map, Forall_forall. intros j _.
  apply Forall_map, Forall_forall. intros i _.
  unfold init_cell. apply paint_painted.
Qed.

(** [setData] leaves a built widget, with the vertex colours in step. *)
Lemma setData_built (d : option (list (list number))) (w : widget) :
  exists w',
    setData d w = Normal w' /\ built w' /\ colours_in_sync w' /\
    same_config w w' /\
    matrix w' = build (mY w) (fun y => build (mX w) (fun x =>
                  init_cell w d x y)) /\
    notified w' = notified w.
Proof.
  unfold setData.
  destruct (_computeChart_built (_initMatrix d w))
    as (w' & E & Hb & Hc & C & M & N).
  - unfold _initMatrix. proj_simpl. apply shape_build.
  - apply init_fresh.
  - exists w'. split; [exact E|]. split; [exact Hb|]. split; [exact Hc|].
    split; [exact C|]. split; [exact M|exact N].
Qed.

Lemma MatrixHeightMap_built (p : params) :
  exists w, MatrixHeightMap p = Normal w /\ built w /\ colours_in_sync w.
Proof.
  unfold MatrixHeightMap.
  match goal with
  | |- exists w, (setData ?d ?w0 >>= _) = _ /\ _ =>
      destruct (setData_built d w0) as (w1 & -> & Hb & Hc & _)
  end.
  cbn [bind]. eexists. split; [reflexivity|].
  destruct Hb as [[Hm Hg Hp] Hobj Hscene Hfresh].
  split; [|exact Hc].
  constructor; [constructor; proj_simpl; auto|exact Hobj|exact Hscene
               |exact Hfresh].
Qed.

Lemma constructed_built (p : params) : built (state_of (MatrixHeightMap p)).
Proof.
  destruct (MatrixHeightMap_built p) as (w & -> & Hb & _). exact Hb.
Qed.

Lemma index_injective (w : widget) (x y x' y' : Z) :
  in_bounds w x y -> in_bounds w x' y' ->
  _getIndexFromCoordinates w x y = _getIndexFromCoordinates w x' y' ->
  (x, y) = (x', y').
Proof.
  intros [Hx Hy] [Hx' Hy']. unfold _getIndexFromCoordinates. intros H.
  assert (y = y') by nia. subst. f_equal. lia.
Qed.

(** [_setValue] at a cell keeps a built widget built; it changes that cell
    only, and leaves the vertex colours as they were. *)
Lemma _setValue_built (w : widget) (x y : Z) (val : number) :
  built w -> in_bounds w x y ->
  exists w',
    _setValue x y val w = Normal w' /\ built w' /\ same_config w w' /\
    matrix w' = store x y (clamp01 val) (matrix w) /\
    (forall i, vertexColorAt w' i = vertexColorAt w i).
Proof.
  intros [Hwf Hobj Hscene Hfresh] Hin.
  pose proof Hwf as [Hm [g [Hg Hlen]] [ps [Hps Hpshape]]].
  destruct (_setValue_fields w x y val ps g Hwf Hin Hobj Hps Hg)
    as (w' & E & C & Hobj' & M & P & G).
  destruct (_setValue_in_bounds w x y val Hwf Hin)
    as (w0 & E0 & Hwf' & _).
  rewrite E in E0. injection E0 as <-.
  pose proof Hin as [Hx Hy].
  destruct (cellAt_in_shape _ _ _ _ _ Hm Hx Hy) as [c0 Hc0].
  exists w'. split; [exact E|]. split; [|split; [exact C|split; [exact M|]]].
  - constructor; [exact Hwf'|exact Hobj'| |].
    + intros x' y' c Hc. rewrite M in Hc.
      assert (Hidx : _getIndexFromCoordinates w' x' y'
                     = _getIndexFromCoordinates w x' y').
      { unfold _getIndexFromCoordinates.
        destruct C as (_ & _ & _ & _ & -> & _). reflexivity. }
      rewrite Hidx. unfold pivotAt, vertexAt. rewrite P, G.
      cbn [vertices].
      destruct (Z.eq_dec x' x) as [->|Hnx];
        [destruct (Z.eq_dec y' y) as [->|Hny]|].
      * rewrite (store_at _ _ _ _ _ Hc0) in Hc. injection Hc as <-.
        cbn [paint value].
        destruct (Hscene x y c0 Hc0) as [Hp Hv].
        unfold pivotAt in Hp. rewrite Hps in Hp.
        unfold vertexAt in Hv. rewrite Hg in Hv.
        split.
        -- change (at2 (alterZ (alterZ (fun _ : pivot =>
                      mkPivot (clamp01 val) (clamp01 val)) x) y ps) x y
                   = Some (mkPivot (clamp01 val) (clamp01 val))).
           rewrite at2_alter_eq. unfold at2. now rewrite Hp.
        -- now rewrite lookupZ_alterZ_eq, Hv.
      * rewrite store_elsewhere in Hc by congruence.
        destruct (Hscene x y' c Hc) as [Hp Hv].
        unfold pivotAt in Hp. rewrite Hps in Hp.
        unfold vertexAt in Hv. rewrite Hg in Hv.
        pose proof (cellAt_in_bounds w x y' c Hm Hc) as Hin'.
        split.
        -- change (at2 (alterZ (alterZ (fun _ : pivot =>
                      mkPivot (clamp01 val) (clamp01 val)) x) y ps) x y'
                   = Some (mkPivot (value c) (value c))).
           rewrite at2_alter_ne by congruence. exact Hp.
        -- rewrite lookupZ_alterZ_ne; [exact Hv|].
           intros Heq. apply (index_injective w _ _ _ _ Hin Hin') in Heq.
           congruence.
      * rewrite store_elsewhere in Hc by congruence.
        destruct (Hscene x' y' c Hc) as [Hp Hv].
        unfold pivotAt in Hp. rewrite Hps in Hp.
        unfold vertexAt in Hv. rewrite Hg in Hv.
        pose proof (cellAt_in_bounds w x' y' c Hm Hc) as Hin'.
        split.
        -- change (at2 (alterZ (alterZ (fun _ : pivot =>
                      mkPivot (clamp01 val) (clamp01 val)) x) y ps) x' y'
                   = Some (mkPivot (value c) (value c))).
           rewrite at2_alter_ne by congruence. exact Hp.
        -- rewrite lookupZ_alterZ_ne; [exact Hv|].
           intros Heq. apply (index_injective w _ _ _ _ Hin Hin') in Heq.
           congruence.
    + unfold colours_fresh. rewrite M. apply Forall2_grid.
      intros x' y' c Hc.
      destruct (Z.eq_dec x' x) as [->|Hnx];
        [destruct (Z.eq_dec y' y) as [->|Hny]|].
      * rewrite (store_at _ _ _ _ _ Hc0) in Hc. injection Hc as <-.
        apply paint_painted.
      * rewrite store_elsewhere in Hc by congruence.
        exact (proj1 (Forall2_grid _) Hfresh _ _ _ Hc).
      * rewrite store_elsewhere in Hc by congruence.
        exact (proj1 (Forall2_grid _) Hfresh _ _ _ Hc).
  - intros i. unfold vertexColorAt. now rewrite G, Hg.
Qed.

Lemma _updateVertexColors_built (w : widget) :
  built w ->
  exists w',
    _updateVertexColors w = Normal w' /\ built w' /\ colours_in_sync w' /\
    same_config w w' /\ matrix w' = matrix w /\ notified w' = notified w.
Proof.
  intros [Hwf Hobj Hscene Hfresh].
  pose proof Hwf as [Hm [g [Hg Hlen]] Hp].
  destruct (_updateVertexColors_spec w g Hm Hg Hlen) as [cols [-> Hcols]].
  eexists. split; [reflexivity|].
  split; [|split; [|split; [repeat split|split; reflexivity]]].
  - constructor; proj_simpl; auto.
    + constructor; proj_simpl; eauto.
    + intros x y c Hc. proj_simpl. destruct (Hscene x y c Hc) as [Hpv Hv].
      split; [exact Hpv|].
      unfold vertexAt in *. proj_simpl. cbn [vertices].
      now rewrite Hg in Hv.
  - intros x y c Hc. unfold vertexColorAt. proj_simpl.
    cbn [vertexColors]. now apply Hcols.
Qed.

(** [setValue] at a cell keeps a built widget built, with the vertex
    colours in step. *)
Lemma setValue_built (w : widget) (x y : Z) (val : number) :
  built w -> in_bounds w x y ->
  exists w',
    setValue x y val w = Normal w' /\ built w' /\ colours_in_sync w' /\
    same_config w w' /\
    matrix w'
    = store x y (clamp01 (_convertValueFromMatrix w val)) (matrix w).
Proof.
  intros Hb Hin.
  destruct (_setValue_built w x y (_convertValueFromMatrix w val) Hb Hin)
    as (w1 & E1 & Hb1 & C1 & M1 & _).
  destruct (_updateVertexColors_built w1 Hb1)
    as (w2 & E2 & Hb2 & Hc2 & C2 & M2 & _).
  exists w2. unfold setValue. rewrite E1. cbn [bind].
  split; [exact E2|]. split; [exact Hb2|]. split; [exact Hc2|].
  split; [exact (same_config_trans _ _ _ C1 C2)|]. now rewrite M2.
Qed.

Lemma setValue_state_built (w : widget) (x y : Z) (val : number) :
  built w -> colours_in_sync w ->
  built (state_of (setValue x y val w)) /\
  colours_in_sync (state_of (setValue x y val w)) /\
  same_config w (state_of (setValue x y val w)).
Proof.
  intros Hb Hc.
  destruct (Z_lt_dec x 0) as [Hx0|Hx0];
    [|destruct (Z_le_dec (Z.of_nat (mX w)) x) as [Hx1|Hx1];
      [|destruct (Z_lt_dec y 0) as [Hy0|Hy0];
        [|destruct (Z_le_dec (Z.of_nat (mY w)) y) as [Hy1|Hy1]]]].
  5: { destruct (setValue_built w x y val Hb) as (w' & -> & Hb' & Hc' & C & _).
       - split; lia.
       - auto. }
  all: unfold setValue;
    rewrite _setValue_out_of_bounds by (try apply Hb; lia);
    cbn [bind state_of]; auto using same_config_refl.
Qed.

Lemma apply_call_built (c : api_call) (w : widget) :
  built w -> colours_in_sync w ->
  built (state_of (apply_call c w)) /\
  colours_in_sync (state_of (apply_call c w)) /\
  same_config w (state_of (apply_call c w)).
Proof.
  intros Hb Hc. destruct c as [d|x y val]; cbn [apply_call].
  - destruct (setData_built d w) as (w' & -> & Hb' & Hc' & C & _). auto.
  - now apply setValue_state_built.
Qed.

Lemma run_calls_built (cs : list api_call) (w : widget) :
  built w -> colours_in_sync w ->
  built (run_calls cs w) /\ colours_in_sync (run_calls cs w) /\
  same_config w (run_calls cs w).
Proof.
  revert w. induction cs as [|c cs IH]; intros w Hb Hc; cbn [run_calls].
  - auto using same_config_refl.
  - destruct (apply_call_built c w Hb Hc) as (Hb' & Hc' & C).
    destruct (IH _ Hb' Hc') as (Hb'' & Hc'' & C').
    split; [exact Hb''|]. split; [exact Hc''|].
    exact (same_config_trans _ _ _ C C').
Qed.

(** X2.  Whatever calls to [setData] and [setValue] follow the
    construction, in range or not, every pivot, its selection sphere and
    the surface vertex of every cell are at the height stored in the
    matrix, and every vertex carries the colour of its cell. *)
Theorem api_keeps_scene_in_step (p : params) (cs : list api_call) :
  wf (run_calls cs (state_of (MatrixHeightMap p))) /\
  scene_in_sync (run_calls cs (state_of (MatrixHeightMap p))) /\
  colours_in_sync (run_calls cs (state_of (MatrixHeightMap p))).
Proof.
  destruct (MatrixHeightMap_built p) as (w & E & Hb & Hc).
  rewrite E. cbn [state_of].
  destruct (run_calls_built cs w Hb Hc) as ([Hwf _ Hs _] & Hc' & _).
  auto.
Qed.

(** X3.  Whatever calls follow the construction, the two colours of every
    cell are the ones computed from the value the cell holds: hue
    [128 - 128 * value], never a stale one. *)
Theorem api_keeps_colours_fresh (p : params) (cs : list api_call) :
  forall x y c,
    cellAt (matrix (run_calls cs (state_of (MatrixHeightMap p)))) x y
    = Some c ->
    color c = hsl (sub (Fin 128) (mul (value c) (Fin 128))) 100 50 /\
    fadedColor c
    = Some (hsl (sub (Fin 128) (mul (value c) (Fin 128))) 75 75).
Proof.
  intros x y c Hc.
  destruct (MatrixHeightMap_built p) as (w & E & Hb & Hcs).
  rewrite E in Hc. cbn [state_of] in Hc.
  destruct (run_calls_built cs w Hb Hcs) as ([_ _ _ Hf] & _ & _).
  pose proof (proj1 (Forall2_grid _) Hf x y c Hc) as Hp.
  unfold painted, paint in Hp. rewrite <- Hp. cbn [color fadedColor value].
  split; reflexivity.
Qed.

Lemma api_keeps_colours_fresh_witness :
  color (mkCell (Fin (1 # 2)) (hsl (Fin 64) 100 50) (Some (hsl (Fin 64) 75 75)))
  = hsl (sub (Fin 128) (mul (Fin (1 # 2)) (Fin 128))) 100 50 /\
  fadedColor
    (mkCell (Fin (1 # 2)) (hsl (Fin 64) 100 50) (Some (hsl (Fin 64) 75 75)))
  = Some (hsl (sub (Fin 128) (mul (Fin (1 # 2)) (Fin 128))) 75 75).
Proof.
  apply (api_keeps_colours_fresh (scenario_params None)
           [SetValue 0 1 (Fin 50)] 0 1).
  vm_compute. reflexivity.
Defined.

(** ** The clamping invariant *)

Lemma normalised_data_bounds (w w' : widget)
    (d : option (list (list number))) :
  minZ w' = minZ w -> maxZ w' = maxZ w ->
  normalised_data w d -> normalised_data w' d.
Proof.
  intros Hmin Hmax. destruct d as [g|]; [|trivial]. cbn [normalised_data].
  intros H. eapply Forall_impl; [|exact H]. intros row Hrow.
  eapply Forall_impl; [|exact Hrow]. intros e He. cbv beta in *.
  unfold _convertValueFromMatrix in *. now rewrite Hmin, Hmax.
Qed.

Lemma normalised_data_config (w w' : widget)
    (d : option (list (list number))) :
  same_config w w' -> normalised_data w d -> normalised_data w' d.
Proof.
  intros (Hmin & Hmax & _). now apply normalised_data_bounds.
Qed.

Lemma normalised_call_config (w w' : widget) (c : api_call) :
  same_config w w' -> normalised_call w c -> normalised_call w' c.
Proof.
  intros C. destruct c as [d|x y val]; cbn [normalised_call].
  - now apply normalised_data_config.
  - now rewrite (convertFrom_config _ _ _ C).
Qed.

Lemma init_cell_clamped (w : widget) (d : option (list (list number)))
    (x y : Z) :
  normalised_data w d -> between 0 1 (value (init_cell w d x y)).
Proof.
  intros Hd. unfold init_cell. cbn [paint value].
  apply clamp01_between.
  destruct d as [g|]; [|reflexivity].
  destruct (lookupZ g y) as [row|] eqn:Hrow; [|reflexivity].
  destruct (lookupZ row x) as [e|] eqn:He; [|reflexivity].
  simpl in Hd. rewrite Forall_forall in Hd.
  pose proof (Hd row (lookupZ_In _ _ _ Hrow)) as Hr.
  rewrite Forall_forall in Hr. apply Hr. apply (lookupZ_In _ _ _ He).
Qed.

Lemma apply_call_clamped (c : api_call) (w : widget) :
  built w -> normalised_call w c -> all_clamped w ->
  all_clamped (state_of (apply_call c w)).
Proof.
  intros Hb Hc Hall. destruct c as [d|x y val]; cbn [apply_call].
  - destruct (setData_built d w) as (w' & -> & _ & _ & _ & M & _).
    cbn [state_of]. unfold all_clamped. rewrite M. unfold build.
    apply Forall_map, Forall_forall. intros j _.
    apply Forall_map, Forall_forall. intros i _.
    now apply init_cell_clamped.
  - destruct (Z_lt_dec x 0) as [Hx0|Hx0];
      [|destruct (Z_le_dec (Z.of_nat (mX w)) x) as [Hx1|Hx1];
        [|destruct (Z_lt_dec y 0) as [Hy0|Hy0];
          [|destruct (Z_le_dec (Z.of_nat (mY w)) y) as [Hy1|Hy1]]]].
    5: { assert (Hin : in_bounds w x y) by (split; lia).
         destruct (setValue_built w x y val Hb Hin) as (w' & -> & _ & _ & _ & M).
         cbn [state_of]. unfold all_clamped. rewrite M.
         apply Forall2_grid. intros x' y' c Hcell.
         destruct Hb as [[Hm _ _] _ _ _].
         destruct (cellAt_in_shape _ _ _ _ _ Hm (proj1 Hin) (proj2 Hin))
           as [c0 Hc0].
         destruct (Z.eq_dec x' x) as [->|Hnx];
           [destruct (Z.eq_dec y' y) as [->|Hny]|].
         - rewrite (store_at _ _ _ _ _ Hc0) in Hcell. injection Hcell as <-.
           cbn [paint value]. apply clamp01_between. exact Hc.
         - rewrite store_elsewhere in Hcell by congruence.
           exact (proj1 (Forall2_grid _) Hall _ _ _ Hcell).
         - rewrite store_elsewhere in Hcell by congruence.
           exact (proj1 (Forall2_grid _) Hall _ _ _ Hcell). }
    all: unfold setValue;
      rewrite _setValue_out_of_bounds by (try apply Hb; lia);
      cbn [bind state_of]; exact Hall.
Qed.

Lemma run_calls_clamped (cs : list api_call) (w0 w : widget) :
  same_config w0 w ->
  built w -> colours_in_sync w -> Forall (normalised_call w0) cs ->
  all_clamped w -> all_clamped (run_calls cs w).
Proof.
  revert w. induction cs as [|c cs IH];
    intros w C0 Hb Hcs Hok Hall; cbn [run_calls]; [exact Hall|].
  inversion Hok as [|? ? Hc Hrest]; subst.
  destruct (apply_call_built c w Hb Hcs) as (Hb' & Hcs' & C).
  apply IH; auto.
  - now apply same_config_trans with w.
  - apply (apply_call_clamped c w); auto.
    now apply (normalised_call_config w0 w).
Qed.

(** X4.  When the normalised form of every entry of the initial data, of
    every [setData] payload and of every [setValue] argument is not [NaN],
    every cell of the matrix holds a value between 0 and 1 after
    construction and any sequence of [setData] and [setValue] calls, in
    range or not. *)
Theorem api_keeps_values_clamped (p : params) (cs : list api_call) :
  normalised_data (state_of (MatrixHeightMap p)) (p_data p) ->
  Forall (normalised_call (state_of (MatrixHeightMap p))) cs ->
  all_clamped (run_calls cs (state_of (MatrixHeightMap p))).
Proof.
  destruct (MatrixHeightMap_built p) as (w & E & Hb & Hc).
  rewrite E. cbn [state_of]. intros Hd Hcs.
  apply (run_calls_clamped cs w w); auto using same_config_refl.
  (* the matrix built by the constructor *)
  unfold MatrixHeightMap in E.
  match type of E with
  | (setData ?d ?w0 >>= _) = _ =>
      destruct (setData_built d w0) as (w1 & E1 & _ & _ & C1 & M & _);
      rewrite E1 in E; cbn [bind] in E; injection E as <-
  end.
  unfold all_clamped. proj_simpl. rewrite M. unfold build.
  apply Forall_map, Forall_forall. intros j _.
  apply Forall_map, Forall_forall. intros i _.
  apply init_cell_clamped.
  eapply normalised_data_bounds; [| |exact Hd]; proj_simpl.
  - destruct C1 as (-> & _). reflexivity.
  - destruct C1 as (_ & -> & _). reflexivity.
Qed.

Lemma api_keeps_values_clamped_witness :
  all_clamped
    (run_calls [SetValue 0 1 (Fin 150); SetData (Some [[Fin (-3)]])]
       (state_of (MatrixHeightMap (scenario_params None)))).
Proof.
  apply (api_keeps_values_clamped (scenario_params None)).
  - exact I.
  - repeat constructor.
Defined.

(** ** Single cells *)

(** X5.  [setValue] at a cell of the grid writes that cell only: every
    other cell keeps its value and its colours, and the dimensions, the
    bounds and the observer are the same afterwards. *)
Theorem setValue_changes_one_cell (w : widget) (x y : Z) (val : number) :
  wf w -> in_bounds w x y ->
  exists w',
    setValue x y val w = Normal w' /\ same_config w w' /\
    forall x' y', (x, y) <> (x', y') ->
      cellAt (matrix w') x' y' = cellAt (matrix w) x' y'.
Proof.
  intros Hwf Hin.
  destruct (setValue_in_bounds w x y val Hwf Hin) as (w' & E & _ & C & M & _).
  exists w'. split; [exact E|]. split; [exact C|].
  intros x' y' Hne. rewrite M. now apply store_elsewhere.
Qed.

Lemma setValue_changes_one_cell_witness :
  exists w',
    setValue 0 1 (Fin 50) (scenario None) = Normal w' /\
    same_config (scenario None) w' /\
    forall x' y', (0%Z, 1%Z) <> (x', y') ->
      cellAt (matrix w') x' y' = cellAt (matrix (scenario None)) x' y'.
Proof.
  apply (setValue_changes_one_cell (scenario None) 0 1 (Fin 50)).
  - apply scenario_wf.
  - split; vm_compute; split; congruence.
Defined.

Lemma build_constant {A : Type} (n : nat) (a : A) :
  build n (fun _ => a) = repeat a n.
Proof.
  unfold build. generalize 0%nat. induction n as [|n IH]; intros k; simpl.
  - reflexivity.
  - now rewrite IH.
Qed.

(** X6.  A widget constructed without initial data holds normalised 0 in
    every cell, painted with hue 128, whatever the bounds are, and its
    external grid shows one number everywhere, the externalised 0 rounded
    to 5 decimals; on the scenario widget that number is 0. *)
Theorem construction_without_data (p : params) :
  p_data p = None ->
  exists w,
    MatrixHeightMap p = Normal w /\
    matrix w
    = repeat (repeat (mkCell (Fin 0) (hsl (Fin 128) 100 50)
                        (Some (hsl (Fin 128) 75 75))) (mX w)) (mY w) /\
    externalData w
    = inr (repeat (repeat (round5 (_convertValueForMatrix w (Fin 0))) (mX w))
             (mY w)) /\
    forall cb, externalData (scenario cb) = inr [[Fin 0; Fin 0]; [Fin 0; Fin 0]].
Proof.
  intros Hd.
  destruct (MatrixHeightMap_ok p) as (w & E & Hwf & _).
  exists w. split; [exact E|].
  assert (M : matrix w
              = repeat (repeat (mkCell (Fin 0) (hsl (Fin 128) 100 50)
                                  (Some (hsl (Fin 128) 75 75))) (mX w))
                  (mY w)).
  { unfold MatrixHeightMap in E. rewrite Hd in E.
    match type of E with
    | (setData ?d ?w0 >>= _) = _ =>
        destruct (setData_ok d w0) as (w1 & E1 & _ & C & M & _);
        rewrite E1 in E; cbn [bind] in E; injection E as <-
    end.
    proj_simpl. rewrite M.
    destruct C as (_ & _ & _ & _ & -> & -> & _).
    rewrite <- build_constant. apply build_ext. intros j _.
    rewrite <- build_constant. apply build_ext. intros i _.
    reflexivity. }
  split; [exact M|]. split.
  - rewrite externalData_ok by apply Hwf. f_equal.
    unfold externalGrid. rewrite M, map_repeat, map_repeat. reflexivity.
  - intros cb. rewrite externalData_ok by apply scenario_wf.
    vm_compute. reflexivity.
Qed.

Lemma construction_without_data_witness :
  exists w,
    MatrixHeightMap (ranged_params (Fin 20) (Fin 30) None) = Normal w /\
    matrix w
    = repeat (repeat (mkCell (Fin 0) (hsl (Fin 128) 100 50)
                        (Some (hsl (Fin 128) 75 75))) (mX w)) (mY w) /\
    externalData w
    = inr (repeat (repeat (round5 (_convertValueForMatrix w (Fin 0))) (mX w))
             (mY w)) /\
    forall cb, externalData (scenario cb) = inr [[Fin 0; Fin 0]; [Fin 0; Fin 0]].
Proof.
  apply (construction_without_data (ranged_params (Fin 20) (Fin 30) None)).
  reflexivity.
Defined.

Lemma at2_map {A B : Type} (f : A -> B) (m : list (list A)) (x y : Z) :
  at2 (map (map f) m) x y = option_map f (at2 m x y).
Proof.
  unfold at2. rewrite lookupZ_map.
  destruct (lookupZ m y) as [r|]; simpl; [|reflexivity].
  apply lookupZ_map.
Qed.

(** X7.  The observer is told the value that was asked for, not the value
    that was stored: with a registered observer, [setValue] at a cell with
    a value whose normalised form is above 1 stores normalised 1 and
    notifies once; the third argument is computed from the unclamped
    normalised value, while the grid passed as fourth argument shows the
    externalised 1 at that cell.  On the scenario widget
    [setValue(0, 1, 150)] passes 150 with a grid that shows 100. *)
Theorem observer_is_told_the_unclamped_value (w : widget) (cb : callback)
    (val : number) (x y : Z) :
  wf w -> in_bounds w x y -> onMatrixDataChange w = Some cb ->
  gt (_convertValueFromMatrix w val) (Fin 1) = true ->
  (exists w' n,
     setValue x y val w = Normal w' /\
     notified w' = notified w ++ [n] /\
     cb_value n
     = round5 (_convertValueForMatrix w (_convertValueFromMatrix w val)) /\
     at2 (cb_data n) x y = Some (round5 (_convertValueForMatrix w (Fin 1))) /\
     exists c, cellAt (matrix w') x y = Some c /\ value c = Fin 1) /\
  (forall cb0, exists w2 n2,
     setValue 0 1 (Fin 150) (scenario (Some cb0)) = Normal w2 /\
     notified w2 = [n2] /\
     cb_value n2 = Fin 150 /\
     cb_data n2 = [[Fin 0; Fin 0]; [Fin 100; Fin 0]]).
Proof.
  intros Hwf Hin Hcb Hgt. split.
  - pose proof Hwf as [Hm _ _]. pose proof Hin as [Hx Hy].
    destruct (cellAt_in_shape _ _ _ _ _ Hm Hx Hy) as [c0 Hc0].
    destruct (setValue_in_bounds w x y val Hwf Hin)
      as (w' & E & _ & C & M & N).
    rewrite Hcb in N.
    assert (Hcell : cellAt (matrix w') x y
                    = Some (paint (mkCell (Fin 1) (color c0) (fadedColor c0)))).
    { rewrite M, (clamp01_above _ Hgt). apply (store_at _ _ _ _ _ Hc0). }
    eexists w', _. split; [exact E|]. split; [exact N|].
    cbn [cb_value cb_data]. split; [reflexivity|]. split.
    + unfold externalGrid. rewrite at2_map.
      change (at2 (matrix w') x y) with (cellAt (matrix w') x y).
      rewrite Hcell. cbn [option_map paint value]. f_equal.
      now rewrite (convertFor_config _ _ _ C).
    + eexists. split; [exact Hcell|]. reflexivity.
  - intros cb0.
    destruct (setValue_in_bounds (scenario (Some cb0)) 0 1 (Fin 150)
                (scenario_wf _)) as (w2 & E2 & _ & C2 & M2 & N2).
    { split; vm_compute; split; congruence. }
    assert (G : externalGrid w2 = [[Fin 0; Fin 0]; [Fin 100; Fin 0]]).
    { unfold externalGrid. rewrite M2.
      erewrite map_ext;
        [|intros r; apply map_ext; intros c1;
          rewrite (convertFor_config _ _ _ C2); reflexivity].
      vm_compute. reflexivity. }
    rewrite G in N2.
    eexists w2, _. split; [exact E2|].
    split; [rewrite N2; vm_compute; reflexivity|].
    split; reflexivity.
Qed.

Lemma observer_is_told_the_unclamped_value_witness :
  (exists w' n,
     setValue 1 1 (Fin 250) (scenario (Some quiet)) = Normal w' /\
     notified w' = notified (scenario (Some quiet)) ++ [n] /\
     cb_value n
     = round5 (_convertValueForMatrix (scenario (Some quiet))
                 (_convertValueFromMatrix (scenario (Some quiet)) (Fin 250))) /\
     at2 (cb_data n) 1 1
     = Some (round5 (_convertValueForMatrix (scenario (Some quiet)) (Fin 1))) /\
     exists c, cellAt (matrix w') 1 1 = Some c /\ value c = Fin 1) /\
  (forall cb0, exists w2 n2,
     setValue 0 1 (Fin 150) (scenario (Some cb0)) = Normal w2 /\
     notified w2 = [n2] /\
     cb_value n2 = Fin 150 /\
     cb_data n2 = [[Fin 0; Fin 0]; [Fin 100; Fin 0]]).
Proof.
  apply (observer_is_told_the_unclamped_value (scenario (Some quiet)) quiet
           (Fin 250) 1 1).
  - apply scenario_wf.
  - split; vm_compute; split; congruence.
  - reflexivity.
  - vm_compute. reflexivity.
Defined.

(** X8.  [setData] starts over: the matrix it leaves depends on the data,
    the bounds and the axis lengths only, so that edits made before it are
    gone; and it never calls the observer. *)
Theorem setData_discards_earlier_state (d : option (list (list number)))
    (w w1 : widget) :
  same_config w w1 ->
  exists w2 w3,
    setData d w1 = Normal w2 /\ setData d w = Normal w3 /\
    matrix w2 = matrix w3 /\
    notified w2 = notified w1 /\ notified w3 = notified w.
Proof.
  intros C.
  destruct (setData_ok d w1) as (w2 & E2 & _ & _ & M2 & N2).
  destruct (setData_ok d w) as (w3 & E3 & _ & _ & M3 & N3).
  exists w2, w3. split; [exact E2|]. split; [exact E3|].
  split; [|split; assumption].
  rewrite M2, M3.
  pose proof C as (Hmin & Hmax & _ & _ & -> & -> & _).
  apply build_ext. intros j _. apply build_ext. intros i _.
  unfold init_cell.
  destruct d as [g|]; [|reflexivity].
  destruct (lookupZ g j); [|reflexivity].
  destruct (lookupZ l i); [|reflexivity].
  now rewrite (convertFrom_config _ _ _ C).
Qed.

Lemma setData_discards_earlier_state_witness :
  exists w2 w3,
    setData (Some [[Fin 10; Fin 20]; [Fin 30; Fin 40]])
      (state_of (setValue 0 1 (Fin 50) (scenario (Some quiet)))) = Normal w2 /\
    setData (Some [[Fin 10; Fin 20]; [Fin 30; Fin 40]])
      (scenario (Some quiet)) = Normal w3 /\
    matrix w2 = matrix w3 /\
    notified w2
    = notified (state_of (setValue 0 1 (Fin 50) (scenario (Some quiet)))) /\
    notified w3 = notified (scenario (Some quiet)).
Proof.
  apply (setData_discards_earlier_state
           (Some [[Fin 10; Fin 20]; [Fin 30; Fin 40]])
           (scenario (Some quiet))
           (state_of (setValue 0 1 (Fin 50) (scenario (Some quiet))))).
  vm_compute. repeat split; reflexivity.
Defined.

(** ** How calls compose *)

Lemma store_store_same (rows cols : nat) (x y : Z) (a b : number)
    (m : list (list cell)) :
  grid_shape rows cols m ->
  store x y b (store x y a m) = store x y b m.
Proof.
  intros Hs.
  apply (grid_ext rows cols); auto using store_shape.
  intros x' y' Hx' Hy'.
  change (cellAt (store x y b (store x y a m)) x' y'
          = cellAt (store x y b m) x' y').
  destruct (Z.eq_dec x' x) as [->|Hnx];
    [destruct (Z.eq_dec y' y) as [->|Hny]|].
  - destruct (cellAt_in_shape _ _ _ _ _ Hs Hx' Hy') as [c Hc].
    rewrite (store_at _ _ b _ _ (store_at _ _ a _ _ Hc)).
    rewrite (store_at _ _ b _ _ Hc). reflexivity.
  - rewrite !store_elsewhere by congruence. reflexivity.
  - rewrite !store_elsewhere by congruence. reflexivity.
Qed.

Lemma store_store_other (rows cols : nat) (x1 y1 x2 y2 : Z) (a b : number)
    (m : list (list cell)) :
  grid_shape rows cols m -> (x1, y1) <> (x2, y2) ->
  store x2 y2 b (store x1 y1 a m) = store x1 y1 a (store x2 y2 b m).
Proof.
  intros Hs Hne.
  apply (grid_ext rows cols); auto using store_shape.
  intros x' y' Hx' Hy'.
  change (cellAt (store x2 y2 b (store x1 y1 a m)) x' y'
          = cellAt (store x1 y1 a (store x2 y2 b m)) x' y').
  destruct (cellAt_in_shape _ _ _ _ _ Hs Hx' Hy') as [c Hc].
  assert (D1 : (x1, y1) = (x', y') \/ (x1, y1) <> (x', y')).
  { destruct (Z.eq_dec x1 x'), (Z.eq_dec y1 y');
      [left; congruence|right; congruence..]. }
  assert (D2 : (x2, y2) = (x', y') \/ (x2, y2) <> (x', y')).
  { destruct (Z.eq_dec x2 x'), (Z.eq_dec y2 y');
      [left; congruence|right; congruence..]. }
  destruct D1 as [E1|N1].
  - injection E1 as -> ->.
    rewrite (store_elsewhere x2 y2 x' y') by exact (fun H => Hne (eq_sym H)).
    rewrite (store_at _ _ a _ _ Hc).
    rewrite (store_at x' y' a (store x2 y2 b m) c).
    + reflexivity.
    + rewrite store_elsewhere by exact (fun H => Hne (eq_sym H)). exact Hc.
  - destruct D2 as [E2|N2].
    + injection E2 as -> ->.
      rewrite (store_elsewhere x1 y1 x' y' a (store x' y' b m)) by exact N1.
      rewrite (store_at _ _ b _ _ Hc).
      rewrite (store_at x' y' b (store x1 y1 a m) c).
      * reflexivity.
      * rewrite store_elsewhere by exact N1. exact Hc.
    + rewrite !store_elsewhere by assumption. reflexivity.
Qed.

(** X9.  Writes to one cell do not accumulate and writes to different cells
    do not interfere: after [setValue(x, y, a)], [setValue(x, y, b)] leaves
    the matrix that [setValue(x, y, b)] alone leaves, and two [setValue]
    calls at different cells leave the same matrix in either order. *)
Theorem setValue_composition (w : widget) (x y x2 y2 : Z) (a b : number) :
  wf w -> in_bounds w x y -> in_bounds w x2 y2 -> (x, y) <> (x2, y2) ->
  (exists w1 w2 w3,
     setValue x y a w = Normal w1 /\ setValue x y b w1 = Normal w2 /\
     setValue x y b w = Normal w3 /\ matrix w2 = matrix w3) /\
  (exists w1 w2 w3 w4,
     setValue x y a w = Normal w1 /\ setValue x2 y2 b w1 = Normal w2 /\
     setValue x2 y2 b w = Normal w3 /\ setValue x y a w3 = Normal w4 /\
     matrix w2 = matrix w4).
Proof.
  intros Hwf Hin Hin2 Hne. pose proof Hwf as [Hm _ _].
  destruct (setValue_in_bounds w x y a Hwf Hin) as (w1 & E1 & Hwf1 & C1 & M1 & _).
  assert (Hin1 : in_bounds w1 x y).
  { destruct C1 as (_ & _ & _ & _ & HX & HY & _).
    unfold in_bounds. now rewrite HX, HY. }
  assert (Hin12 : in_bounds w1 x2 y2).
  { destruct C1 as (_ & _ & _ & _ & HX & HY & _).
    unfold in_bounds. now rewrite HX, HY. }
  destruct (setValue_in_bounds w x y b Hwf Hin) as (w3 & E3 & _ & _ & M3 & _).
  destruct (setValue_in_bounds w1 x y b Hwf1 Hin1) as (w2 & E2 & _ & _ & M2 & _).
  destruct (setValue_in_bounds w x2 y2 b Hwf Hin2)
    as (v3 & F3 & Hwfv3 & D3 & L3 & _).
  destruct (setValue_in_bounds w1 x2 y2 b Hwf1 Hin12)
    as (v2 & F2 & _ & _ & L2 & _).
  assert (Hinv3 : in_bounds v3 x y).
  { destruct D3 as (_ & _ & _ & _ & HX & HY & _).
    unfold in_bounds. now rewrite HX, HY. }
  destruct (setValue_in_bounds v3 x y a Hwfv3 Hinv3)
    as (v4 & F4 & _ & _ & L4 & _).
  split.
  - exists w1, w2, w3. repeat split; auto.
    rewrite M2, M3, M1, (convertFrom_config _ _ _ C1).
    apply (store_store_same _ _ _ _ _ _ _ Hm).
  - exists w1, v2, v3, v4. repeat split; auto.
    rewrite L2, L4, M1, L3.
    rewrite (convertFrom_config _ _ _ C1), (convertFrom_config _ _ _ D3).
    apply (store_store_other _ _ _ _ _ _ _ _ _ Hm Hne).
Qed.

Lemma setValue_composition_witness :
  (exists w1 w2 w3,
     setValue 0 0 (Fin 10) (scenario None) = Normal w1 /\
     setValue 0 0 (Fin 70) w1 = Normal w2 /\
     setValue 0 0 (Fin 70) (scenario None) = Normal w3 /\
     matrix w2 = matrix w3) /\
  (exists w1 w2 w3 w4,
     setValue 0 0 (Fin 10) (scenario None) = Normal w1 /\
     setValue 1 1 (Fin 70) w1 = Normal w2 /\
     setValue 1 1 (Fin 70) (scenario None) = Normal w3 /\
     setValue 0 0 (Fin 10) w3 = Normal w4 /\
     matrix w2 = matrix w4).
Proof.
  apply (setValue_composition (scenario None) 0 0 1 1 (Fin 10) (Fin 70)).
  - apply scenario_wf.
  - split; vm_compute; split; congruence.
  - split; vm_compute; split; congruence.
  - congruence.
Defined.

(** X10.  [_setMatrixValueColor] paints a cell holding a value [v] between
    0 and 1 with the hue [128 - 128 v], which lies between 0 and 128 and
    falls as the value rises, at saturation and lightness 100/50 (75/75 for
    the faded colour); it leaves the value and every other cell alone, and
    on a coordinate without a cell it does nothing. *)
Theorem colour_of_a_value (m : list (list cell)) (x y : Z) (c : cell)
    (v : Q) :
  cellAt m x y = Some c -> value c = Fin v -> 0 <= v <= 1 ->
  (exists h,
     cellAt (_setMatrixValueColor x y m) x y
     = Some (mkCell (Fin v) (hsl (Fin h) 100 50) (Some (hsl (Fin h) 75 75))) /\
     h == 128 - 128 * v /\ 0 <= h <= 128) /\
  (forall x' y', (x, y) <> (x', y') ->
     cellAt (_setMatrixValueColor x y m) x' y' = cellAt m x' y') /\
  (forall x' y', cellAt m x' y' = None -> _setMatrixValueColor x' y' m = m).
Proof.
  intros Hc Hv Hrange. split; [|split].
  - unfold _setMatrixValueColor. rewrite Hc, cellAt_alter_eq, Hc.
    cbn [option_map]. unfold paint. rewrite Hv.
    destruct (mul_Fin v 128) as [p [-> Hp]].
    destruct (sub_Fin 128 p) as [h [-> Hh]].
    exists h. split; [reflexivity|].
    assert (h == 128 - 128 * v) as Hq by (rewrite Hh, Hp; ring).
    split; [exact Hq|]. rewrite Hq. lra.
  - intros x' y' Hne. unfold _setMatrixValueColor. rewrite Hc.
    now apply cellAt_alter_ne.
  - intros x' y' Hnone. unfold _setMatrixValueColor. now rewrite Hnone.
Qed.

Lemma colour_of_a_value_witness :
  (exists h,
     cellAt (_setMatrixValueColor 0 0
               [[mkCell (Fin (1 # 4)) (hsl (Fin 0) 100 50) None]]) 0 0
     = Some (mkCell (Fin (1 # 4)) (hsl (Fin h) 100 50)
               (Some (hsl (Fin h) 75 75))) /\
     h == 128 - 128 * (1 # 4) /\ 0 <= h <= 128) /\
  (forall x' y', (0%Z, 0%Z) <> (x', y') ->
     cellAt (_setMatrixValueColor 0 0
               [[mkCell (Fin (1 # 4)) (hsl (Fin 0) 100 50) None]]) x' y'
     = cellAt [[mkCell (Fin (1 # 4)) (hsl (Fin 0) 100 50) None]] x' y') /\
  (forall x' y',
     cellAt [[mkCell (Fin (1 # 4)) (hsl (Fin 0) 100 50) None]] x' y' = None ->
     _setMatrixValueColor x' y'
       [[mkCell (Fin (1 # 4)) (hsl (Fin 0) 100 50) None]]
     = [[mkCell (Fin (1 # 4)) (hsl (Fin 0) 100 50) None]]).
Proof.
  apply (colour_of_a_value
           [[mkCell (Fin (1 # 4)) (hsl (Fin 0) 100 50) None]] 0 0
           (mkCell (Fin (1 # 4)) (hsl (Fin 0) 100 50) None) (1 # 4)).
  - reflexivity.
  - reflexivity.
  - split; discriminate.
Defined.

(** ** Axis billboards *)

Lemma label_rows_nth {A : Type} (d : Q) (l : list A) (i : Z) (k : nat)
    (a : A) :
  nth_error l k = Some a ->
  exists q,
    nth_error (label_rows (Fin d) (Fin 50) i l) k = Some (a, Fin q) /\
    q == (inject_Z i + inject_Z (Z.of_nat k)) * d + 25.
Proof.
  revert i k. induction l as [|b l IH]; intros i k Hk.
  - destruct k; discriminate.
  - destruct k as [|k].
    + injection Hk as ->. cbn [label_rows nth_error].
      destruct (mul_Fin (inject_Z i) d) as [p [-> Hp]].
      assert (mul (Fin 50) (Fin (1 # 2)) = Fin 25) as -> by reflexivity.
      destruct (add_Fin p 25) as [q [-> Hq]].
      exists q. split; [reflexivity|]. rewrite Hq, Hp. simpl inject_Z. ring.
    + cbn [label_rows nth_error]. cbn [nth_error] in Hk.
      destruct (IH (i + 1)%Z k Hk) as [q [Hq Hv]].
      exists q. split; [exact Hq|]. rewrite Hv.
      rewrite Nat2Z.inj_succ. unfold Z.succ. rewrite !inject_Z_plus.
      simpl inject_Z. ring.
Qed.

Lemma length_label_rows {A : Type} (inc off : number) (l : list A) (i : Z) :
  length (label_rows inc off i l) = length l.
Proof.
  revert i. induction l as [|b l IH]; intros i; simpl; [reflexivity|].
  now rewrite IH.
Qed.

Lemma grid_line_increment {A : Type} (l : list A) (h : Z) :
  (2 <= length l)%nat ->
  exists d,
    div (sub (mul (Fin (inject_Z h)) (Fin 1024)) (Fin 50))
        (sub (Fin (inject_Z (Z.of_nat (length l)))) (Fin 1)) = Fin d /\
    d == (1024 * inject_Z h - 50) / (inject_Z (Z.of_nat (length l)) - 1).
Proof.
  intros Hn.
  destruct (mul_Fin (inject_Z h) 1024) as [c [-> Hc]].
  destruct (sub_Fin c 50) as [u [-> Hu]].
  destruct (sub_Fin (inject_Z (Z.of_nat (length l))) 1) as [n1 [-> Hn1]].
  assert (1 <= inject_Z (Z.of_nat (length l)) - 1) as Hpos.
  { assert (inject_Z 2 <= inject_Z (Z.of_nat (length l))) as H2
      by (rewrite <- Zle_Qle; lia).
    change (inject_Z 2) with (2 # 1) in H2. lra. }
  destruct (div_Fin u n1) as [d [-> Hd]].
  - rewrite Hn1. lra.
  - exists d. split; [reflexivity|]. rewrite Hd, Hu, Hc, Hn1.
    field. lra.
Qed.

(** X11.  On an axis of two or more labels, [_makeGridLine] draws every
    label, in order, down the canvas: label [k] of [n] at the pixel
    [k * ((1024 height - 50) / (n - 1)) + 25], so the first at 25 and none
    above it. *)
Theorem labels_are_evenly_spaced {A : Type} (l : list A) (h : Z) (k : nat)
    (a : A) :
  (1 <= h)%Z -> (2 <= length l)%nat -> nth_error l k = Some a ->
  length (_makeGridLine l h) = length l /\
  exists q,
    nth_error (_makeGridLine l h) k = Some (a, Fin q) /\
    q == 25 + inject_Z (Z.of_nat k)
              * ((1024 * inject_Z h - 50)
                 / (inject_Z (Z.of_nat (length l)) - 1)) /\
    (k = 0%nat -> q == 25) /\
    25 <= q.
Proof.
  intros Hh Hn Hk. unfold _makeGridLine. cbv zeta.
  split; [apply length_label_rows|].
  destruct (grid_line_increment l h Hn) as [d [-> Hd]].
  destruct (label_rows_nth d l 0 k a Hk) as [q [Hq Hv]].
  exists q. split; [exact Hq|].
  assert (Hform : q == 25 + inject_Z (Z.of_nat k)
                         * ((1024 * inject_Z h - 50)
                            / (inject_Z (Z.of_nat (length l)) - 1))).
  { rewrite Hv, Hd. simpl (inject_Z 0). ring. }
  split; [exact Hform|]. split.
  - intros ->. rewrite Hform. simpl inject_Z. ring.
  - rewrite Hv. simpl (inject_Z 0).
    assert (0 <= inject_Z (Z.of_nat k)) as Hk0
      by (change 0 with (inject_Z 0); rewrite <- Zle_Qle; lia).
    assert (0 <= d) as Hd0.
    { rewrite Hd.
      assert (inject_Z 2 <= inject_Z (Z.of_nat (length l))) as H2
        by (rewrite <- Zle_Qle; lia).
      change (inject_Z 2) with (2 # 1) in H2.
      assert (inject_Z 1 <= inject_Z h) as H1 by (rewrite <- Zle_Qle; lia).
      change (inject_Z 1) with (1 # 1) in H1.
      apply Qle_shift_div_l; lra. }
    set (kq := inject_Z (Z.of_nat k)) in *. nra.
Qed.

Lemma labels_are_evenly_spaced_witness :
  length (_makeGridLine ["1"; "2"; "3"]%string 2)
  = length ["1"; "2"; "3"]%string /\
  exists q,
    nth_error (_makeGridLine ["1"; "2"; "3"]%string 2) 2
    = Some ("3"%string, Fin q) /\
    q == 25 + inject_Z (Z.of_nat 2)
              * ((1024 * inject_Z 2 - 50)
                 / (inject_Z (Z.of_nat (length ["1"; "2"; "3"]%string)) - 1)) /\
    (2%nat = 0%nat -> q == 25) /\
    25 <= q.
Proof.
  apply (labels_are_evenly_spaced ["1"; "2"; "3"]%string 2 2 "3"%string).
  - lia.
  - simpl. lia.
  - reflexivity.
Defined.

(** X12.  An axis with a single label divides by zero: the spacing is
    infinite and the one label is drawn at the height [0 * Infinity + 25],
    which is [NaN]; an axis without labels draws nothing. *)
Theorem single_label_is_drawn_at_NaN {A : Type} (a : A) (h : Z) :
  (1 <= h)%Z ->
  _makeGridLine [a] h = [(a, NaN)] /\
  _makeGridLine (@nil A) h = [].
Proof.
  intros Hh. split; [|reflexivity].
  unfold _makeGridLine. cbv zeta. cbn [length label_rows].
  destruct (mul_Fin (inject_Z h) 1024) as [c [-> Hc]].
  destruct (sub_Fin c 50) as [u [-> Hu]].
  assert (sub (Fin (inject_Z (Z.of_nat 1))) (Fin 1) = Fin 0) as ->
    by reflexivity.
  rewrite div_Fin_zero by reflexivity.
  assert (0 < u) as Hpos.
  { rewrite Hu, Hc.
    assert (inject_Z 1 <= inject_Z h) as H1 by (rewrite <- Zle_Qle; lia).
    change (inject_Z 1) with (1 # 1) in H1. lra. }
  apply Qcompare_Gt_iff in Hpos. rewrite Hpos. reflexivity.
Qed.

Lemma single_label_is_drawn_at_NaN_witness :
  _makeGridLine ["A"%string] 2 = [("A"%string, NaN)] /\
  _makeGridLine (@nil string) 2 = [].
Proof.
  apply (single_label_is_drawn_at_NaN "A"%string 2). lia.
Defined.

(** ** Interaction *)

Ltac sess_simpl :=
  cbn [chart activePivotX activePivotY mouseDown cellSelected lastMouseY
       mouseX mouseY enableRotate enablePan set_chart session_of] in *.

Lemma in_bounds_test (w : widget) (x y : Z) :
  in_bounds w x y ->
  ((0 <=? x)%Z && (x <? Z.of_nat (mX w))%Z &&
   (0 <=? y)%Z && (y <? Z.of_nat (mY w))%Z)%bool = true.
Proof.
  intros [Hx Hy].
  rewrite !andb_true_iff, !Z.leb_le, !Z.ltb_lt. lia.
Qed.

(** One step of a drag, with the matrix it leaves. *)
Lemma drag_step_store (s : session) (dims : rect) (ev : mouse_event)
    (x y : Z) (c : cell) :
  built (chart s) -> in_bounds (chart s) x y ->
  activePivotX s = Some x -> activePivotY s = Some y -> mouseDown s = true ->
  cellAt (matrix (chart s)) x y = Some c ->
  exists s',
    _onMouseMoveEvent dims ev s = Done s' /\
    matrix (chart s')
    = store x y
        (clamp01 (sub (value c)
                    (mul (sub (clientY ev) (lastMouseY s)) (Fin (1 # 1000)))))
        (matrix (chart s)) /\
    built (chart s') /\ same_config (chart s) (chart s') /\
    lastMouseY s' = clientY ev /\ cellSelected s' = true /\
    mouseDown s' = true /\
    activePivotX s' = Some x /\ activePivotY s' = Some y /\
    enableRotate s' = enableRotate s /\ enablePan s' = enablePan s /\
    (forall i, vertexColorAt (chart s') i = vertexColorAt (chart s) i).
Proof.
  intros Hb Hin Hax Hay Hdown Hc.
  unfold _onMouseMoveEvent. cbv zeta. sess_simpl.
  rewrite Hax, Hay, (in_bounds_test _ _ _ Hin), Hdown.
  pose proof Hb as [_ _ Hscene _].
  destruct (Hscene x y c Hc) as [Hp _]. rewrite Hp.
  cbn [positionY].
  destruct (_setValue_built (chart s) x y
              (sub (value c)
                 (mul (sub (clientY ev) (lastMouseY s)) (Fin (1 # 1000))))
              Hb Hin) as (w' & -> & Hb' & C & M & V).
  eexists. split; [reflexivity|]. sess_simpl.
  split; [exact M|]. split; [exact Hb'|]. split; [exact C|].
  repeat split; auto.
Qed.

(** X14.  One step of a drag: with the button down and an active pivot of
    the grid, a pointer move from vertical position [y0] to [y1] sets the
    cell from its value [v] to [v - (y1 - y0) / 1000], clamped to [[0, 1]],
    leaves every other cell as it was, and records [y1] as the new
    reference position. *)
Theorem drag_step (s : session) (dims : rect) (ev : mouse_event)
    (x y : Z) (c : cell) (v y0 y1 : Q) :
  built (chart s) -> in_bounds (chart s) x y ->
  activePivotX s = Some x -> activePivotY s = Some y -> mouseDown s = true ->
  cellAt (matrix (chart s)) x y = Some c -> value c = Fin v ->
  lastMouseY s = Fin y0 -> clientY ev = Fin y1 ->
  exists s' q c',
    _onMouseMoveEvent dims ev s = Done s' /\
    q == v - (y1 - y0) * (1 # 1000) /\
    cellAt (matrix (chart s')) x y = Some c' /\
    value c' = clamp01 (Fin q) /\ between 0 1 (value c') /\
    (forall x' y', (x, y) <> (x', y') ->
       cellAt (matrix (chart s')) x' y' = cellAt (matrix (chart s)) x' y') /\
    lastMouseY s' = Fin y1 /\ cellSelected s' = true /\
    built (chart s').
Proof.
  intros Hb Hin Hax Hay Hdown Hc Hv Hy0 Hy1.
  destruct (drag_step_store s dims ev x y c Hb Hin Hax Hay Hdown Hc)
    as (s' & E & M & Hb' & _ & HL & HS & _).
  rewrite Hv, Hy0, Hy1 in M.
  destruct (sub_Fin y1 y0) as [d [Ed Hd]]. rewrite Ed in M.
  destruct (mul_Fin d (1 # 1000)) as [t [Et Ht]]. rewrite Et in M.
  destruct (sub_Fin v t) as [q [Eq Hq]]. rewrite Eq in M.
  exists s', q. eexists. split; [exact E|].
  split; [rewrite Hq, Ht, Hd; reflexivity|].
  split; [rewrite M; apply (store_at _ _ _ _ _ Hc)|].
  cbn [paint value]. split; [reflexivity|].
  split; [apply clamp01_between; reflexivity|].
  split; [intros x' y' Hne; rewrite M; now apply store_elsewhere|].
  split; [now rewrite HL|]. split; [exact HS|exact Hb'].
Qed.

Lemma scenario_built (cb : option callback) : built (scenario cb).
Proof. apply constructed_built. Qed.

Lemma drag_step_witness :
  exists s' q c',
    _onMouseMoveEvent (mkRect (Fin 0) (Fin 0) (Fin 800) (Fin 600))
      (mkMouseEvent (Fin 10) (Fin 100) 0) pressed_scenario = Done s' /\
    q == 0 - (100 - 300) * (1 # 1000) /\
    cellAt (matrix (chart s')) 0 1 = Some c' /\
    value c' = clamp01 (Fin q) /\ between 0 1 (value c') /\
    (forall x' y', (0%Z, 1%Z) <> (x', y') ->
       cellAt (matrix (chart s')) x' y'
       = cellAt (matrix (chart pressed_scenario)) x' y') /\
    lastMouseY s' = Fin 100 /\ cellSelected s' = true /\
    built (chart s').
Proof.
  apply (drag_step pressed_scenario
           (mkRect (Fin 0) (Fin 0) (Fin 800) (Fin 600))
           (mkMouseEvent (Fin 10) (Fin 100) 0) 0 1
           (mkCell (Fin 0) (hsl (Fin 128) 100 50) (Some (hsl (Fin 128) 75 75)))
           0 300 100).
  - apply scenario_built.
  - split; vm_compute; split; congruence.
  - reflexivity.
  - reflexivity.
  - reflexivity.
  - vm_compute. reflexivity.
  - reflexivity.
  - reflexivity.
  - reflexivity.
Defined.

(** X15.  A pointer move edits nothing unless a drag is under way: without
    the button down, or without an active pivot, [_onMouseMoveEvent]
    completes and leaves the widget, the active pivot, the press state and
    the reference position as they were; and a press with another button
    than the primary one changes nothing at all. *)
Theorem pointer_move_without_drag (s : session) (dims : rect)
    (ev : mouse_event) :
  mouseDown s = false \/ activePivotX s = None \/ activePivotY s = None ->
  (exists s',
     _onMouseMoveEvent dims ev s = Done s' /\ chart s' = chart s /\
     activePivotX s' = activePivotX s /\ activePivotY s' = activePivotY s /\
     mouseDown s' = mouseDown s /\ lastMouseY s' = lastMouseY s /\
     cellSelected s' = cellSelected s) /\
  (button ev <> 0%Z -> _onMouseDownEvent ev s = s).
Proof.
  intros H. split.
  - unfold _onMouseMoveEvent. cbv zeta. sess_simpl.
    destruct (activePivotX s) as [ax|] eqn:Hax,
             (activePivotY s) as [ay|] eqn:Hay;
      try (eexists; split; [reflexivity|]; sess_simpl;
           repeat split; auto; fail).
    destruct H as [H|[H|H]]; try discriminate. rewrite H.
    destruct (_ && _)%bool;
      (eexists; split; [reflexivity|]; sess_simpl; repeat split; auto).
  - intros Hb. unfold _onMouseDownEvent.
    destruct (Z.eqb_spec (button ev) 0); [contradiction|reflexivity].
Qed.

Lemma pointer_move_without_drag_witness :
  (exists s',
     _onMouseMoveEvent (mkRect (Fin 0) (Fin 0) (Fin 800) (Fin 600))
       (mkMouseEvent (Fin 10) (Fin 100) 2) (new_session (scenario None))
     = Done s' /\
     chart s' = chart (new_session (scenario None)) /\
     activePivotX s' = activePivotX (new_session (scenario None)) /\
     activePivotY s' = activePivotY (new_session (scenario None)) /\
     mouseDown s' = mouseDown (new_session (scenario None)) /\
     lastMouseY s' = lastMouseY (new_session (scenario None)) /\
     cellSelected s' = cellSelected (new_session (scenario None))) /\
  (button (mkMouseEvent (Fin 10) (Fin 100) 2) <> 0%Z ->
   _onMouseDownEvent (mkMouseEvent (Fin 10) (Fin 100) 2)
     (new_session (scenario None))
   = new_session (scenario None)).
Proof.
  apply (pointer_move_without_drag (new_session (scenario None))
           (mkRect (Fin 0) (Fin 0) (Fin 800) (Fin 600))
           (mkMouseEvent (Fin 10) (Fin 100) 2)).
  left. reflexivity.
Defined.

Lemma mouse_up_active (s : session) (ev : mouse_event) (x y : Z) :
  built (chart s) -> in_bounds (chart s) x y ->
  activePivotX s = Some x -> activePivotY s = Some y ->
  exists s',
    _onMouseUpEvent ev s = Done s' /\ mouseDown s' = false /\
    matrix (chart s') = matrix (chart s) /\
    colours_in_sync (chart s') /\ built (chart s') /\
    activePivotX s' = Some x /\ activePivotY s' = Some y.
Proof.
  intros Hb [Hx Hy] Hax Hay. pose proof Hb as [[Hm _ _] _ _ _].
  destruct (cellAt_in_shape _ _ _ _ _ Hm Hx Hy) as [c Hc].
  destruct (_updateVertexColors_built (chart s) Hb)
    as (w' & E & Hb' & Hcs & _ & M & _).
  unfold _onMouseUpEvent. cbv zeta. sess_simpl.
  rewrite Hax, Hay, Hc, E.
  eexists. split; [reflexivity|]. sess_simpl.
  split; [reflexivity|]. split; [exact M|]. split; [exact Hcs|].
  split; [exact Hb'|]. split; first [reflexivity|assumption].
Qed.

(** X17.  During a drag the surface keeps the vertex colours it had: a drag
    step moves the cell, its pivot and its vertex but recomputes no vertex
    colour; the release of the button then recomputes them all from the
    matrix, which it does not change, and ends the press. *)
Theorem release_recolours_the_surface (s : session) (dims : rect)
    (move up : mouse_event) (x y : Z) :
  built (chart s) -> in_bounds (chart s) x y ->
  activePivotX s = Some x -> activePivotY s = Some y -> mouseDown s = true ->
  exists s1 s2,
    _onMouseMoveEvent dims move s = Done s1 /\
    (forall i, vertexColorAt (chart s1) i = vertexColorAt (chart s) i) /\
    scene_in_sync (chart s1) /\
    _onMouseUpEvent up s1 = Done s2 /\
    matrix (chart s2) = matrix (chart s1) /\
    colours_in_sync (chart s2) /\ scene_in_sync (chart s2) /\
    mouseDown s2 = false.
Proof.
  intros Hb Hin Hax Hay Hdown. pose proof Hb as [[Hm _ _] _ _ _].
  destruct (cellAt_in_shape _ _ _ _ _ Hm (proj1 Hin) (proj2 Hin)) as [c Hc].
  destruct (drag_step_store s dims move x y c Hb Hin Hax Hay Hdown Hc)
    as (s1 & E1 & _ & Hb1 & C1 & _ & _ & _ & AX1 & AY1 & _ & _ & V).
  assert (Hin1 : in_bounds (chart s1) x y).
  { destruct C1 as (_ & _ & _ & _ & HX & HY & _).
    unfold in_bounds. now rewrite HX, HY. }
  destruct (mouse_up_active s1 up x y Hb1 Hin1 AX1 AY1)
    as (s2 & E2 & D2 & M2 & Hcs2 & Hb2 & _).
  exists s1, s2. split; [exact E1|]. split; [exact V|].
  split; [apply Hb1|]. split; [exact E2|]. split; [exact M2|].
  split; [exact Hcs2|]. split; [apply Hb2|exact D2].
Qed.

Lemma release_recolours_the_surface_witness :
  exists s1 s2,
    _onMouseMoveEvent (mkRect (Fin 0) (Fin 0) (Fin 800) (Fin 600))
      (mkMouseEvent (Fin 10) (Fin 100) 0) pressed_scenario = Done s1 /\
    (forall i, vertexColorAt (chart s1) i
               = vertexColorAt (chart pressed_scenario) i) /\
    scene_in_sync (chart s1) /\
    _onMouseUpEvent (mkMouseEvent (Fin 10) (Fin 100) 0) s1 = Done s2 /\
    matrix (chart s2) = matrix (chart s1) /\
    colours_in_sync (chart s2) /\ scene_in_sync (chart s2) /\
    mouseDown s2 = false.
Proof.
  apply (release_recolours_the_surface pressed_scenario _ _ _ 0 1).
  - apply scenario_built.
  - split; vm_compute; split; congruence.
  - reflexivity.
  - reflexivity.
  - reflexivity.
Defined.

Lemma pivots_selectable (w : widget) (x y : Z) :
  wf w -> in_bounds w x y ->
  match vertexPivots w with
  | None => false
  | Some ps => (0 <? length (concat ps))%nat
  end = true.
Proof.
  intros [_ _ [ps [-> Hs]]] [Hx Hy].
  destruct (shape_lookup _ _ _ _ _ Hs Hx Hy) as (r & p & Hr & Hlen & Hp).
  apply Nat.ltb_lt.
  assert (In r ps) as Hin by apply (lookupZ_In _ _ _ Hr).
  assert (In p (concat ps)) as Hpin.
  { apply in_concat. exists r. split; [exact Hin|].
    apply (lookupZ_In _ _ _ Hp). }
  destruct (concat ps); [contradiction|simpl; lia].
Qed.

(** X18.  A whole drag gesture.  With the button up, a frame whose ray hits
    the pivot of a cell makes it the active one; a press with the primary
    button at height [y0] starts the drag; frames during the press do not
    change the active pivot, whatever the ray hits; a move to height [y1]
    takes the cell from its value [v] to [v - (y1 - y0) / 1000], clamped;
    and the release ends the press with the cell at that value, the scene
    at the heights of the matrix and every vertex in the colour of its
    cell. *)
Theorem drag_gesture (s : session) (dims : rect)
    (down move up : mouse_event) (other : option (Z * Z))
    (x y : Z) (c : cell) (v y0 y1 : Q) :
  built (chart s) -> in_bounds (chart s) x y -> mouseDown s = false ->
  cellAt (matrix (chart s)) x y = Some c -> value c = Fin v ->
  button down = 0%Z -> clientY down = Fin y0 -> clientY move = Fin y1 ->
  exists s4 s5 q c',
    _onMouseMoveEvent dims move
      (_animate other (_onMouseDownEvent down (_animate (Some (x, y)) s)))
    = Done s4 /\
    _onMouseUpEvent up s4 = Done s5 /\
    q == v - (y1 - y0) * (1 # 1000) /\
    cellAt (matrix (chart s5)) x y = Some c' /\
    value c' = clamp01 (Fin q) /\
    scene_in_sync (chart s5) /\ colours_in_sync (chart s5) /\
    mouseDown s5 = false /\
    activePivotX s5 = Some x /\ activePivotY s5 = Some y.
Proof.
  intros Hb Hin Hup Hc Hv Hbtn Hy0 Hy1.
  pose proof Hb as [Hwf _ _ _].
  set (s1 := _animate (Some (x, y)) s).
  assert (E1 : s1 = mkSession (chart s) (Some x) (Some y) (mouseDown s)
                      (cellSelected s) (lastMouseY s) (mouseX s) (mouseY s)
                      (enableRotate s) (enablePan s)).
  { unfold s1, _animate. cbv zeta.
    rewrite Hup, (pivots_selectable _ _ _ Hwf Hin). reflexivity. }
  set (s2 := _onMouseDownEvent down s1).
  assert (E2 : s2 = mkSession (chart s) (Some x) (Some y) true false
                      (Fin y0) (mouseX s) (mouseY s)
                      (enableRotate s) (enablePan s)).
  { unfold s2, _onMouseDownEvent. rewrite Hbtn, E1, Hy0. reflexivity. }
  assert (E3 : _animate other s2 = s2).
  { rewrite E2. unfold _animate. cbv zeta. reflexivity. }
  rewrite E3, E2.
  match goal with
  | |- context [_onMouseMoveEvent dims move ?s0] => set (sp := s0)
  end.
  destruct (drag_step_store sp dims move x y c Hb Hin eq_refl eq_refl eq_refl Hc)
    as (s4 & E4 & M4 & Hb4 & C4 & _ & _ & _ & AX4 & AY4 & _).
  assert (Hin4 : in_bounds (chart s4) x y).
  { destruct C4 as (_ & _ & _ & _ & HX & HY & _).
    unfold in_bounds. rewrite HX, HY. exact Hin. }
  destruct (mouse_up_active s4 up x y Hb4 Hin4 AX4 AY4)
    as (s5 & E5 & D5 & M5 & Hcs5 & Hb5 & AX5 & AY5).
  unfold sp in M4. sess_simpl. rewrite Hv, Hy1 in M4.
  destruct (sub_Fin y1 y0) as [d [Ed Hd]]. rewrite Ed in M4.
  destruct (mul_Fin d (1 # 1000)) as [t [Et Ht]]. rewrite Et in M4.
  destruct (sub_Fin v t) as [q [Eq Hq]]. rewrite Eq in M4.
  exists s4, s5, q. eexists. split; [exact E4|]. split; [exact E5|].
  split; [rewrite Hq, Ht, Hd; reflexivity|].
  split; [rewrite M5, M4; apply (store_at _ _ _ _ _ Hc)|].
  cbn [paint value]. split; [reflexivity|].
  split; [apply Hb5|]. split; [exact Hcs5|]. auto.
Qed.

Lemma drag_gesture_witness :
  exists s4 s5 q c',
    _onMouseMoveEvent (mkRect (Fin 0) (Fin 0) (Fin 800) (Fin 600))
      (mkMouseEvent (Fin 10) (Fin 100) 0)
      (_animate (Some (1%Z, 1%Z))
         (_onMouseDownEvent (mkMouseEvent (Fin 10) (Fin 300) 0)
            (_animate (Some (0%Z, 1%Z)) (new_session (scenario None)))))
    = Done s4 /\
    _onMouseUpEvent (mkMouseEvent (Fin 10) (Fin 100) 0) s4 = Done s5 /\
    q == 0 - (100 - 300) * (1 # 1000) /\
    cellAt (matrix (chart s5)) 0 1 = Some c' /\
    value c' = clamp01 (Fin q) /\
    scene_in_sync (chart s5) /\ colours_in_sync (chart s5) /\
    mouseDown s5 = false /\
    activePivotX s5 = Some 0%Z /\ activePivotY s5 = Some 1%Z.
Proof.
  apply (drag_gesture (new_session (scenario None)) _ _ _ _ _ 0 1
           (mkCell (Fin 0) (hsl (Fin 128) 100 50) (Some (hsl (Fin 128) 75 75)))
           0 300 100).
  - apply scenario_built.
  - split; vm_compute; split; congruence.
  - reflexivity.
  - vm_compute. reflexivity.
  - reflexivity.
  - reflexivity.
  - reflexivity.
  - reflexivity.
Defined.

Lemma key_step_frame (s : session) (a : key_action) :
  chart (key_step s a) = chart s /\
  mouseDown (key_step s a) = mouseDown s /\
  activePivotX (key_step s a) = activePivotX s /\
  activePivotY (key_step s a) = activePivotY s /\
  (enablePan s = negb (enableRotate s) ->
   enablePan (key_step s a) = negb (enableRotate (key_step s a))).
Proof.
  destruct a as [[ctrl]|[ctrl]]; cbn [key_step];
    unfold _onKeyDownEvent, _onKeyUpEvent; cbn [ctrlKey];
    destruct ctrl; cbn [negb]; sess_simpl; auto.
Qed.

(** X19.  The keyboard only switches the camera mode.  After any sequence
    of key events exactly one of rotation and panning is enabled, and the
    widget, the press and the active pivot are untouched; a key press with
    the control key held leaves panning on, and a key release without it
    leaves rotation on, whatever came before. *)
Theorem keys_switch_the_camera_mode (s : session) (acts : list key_action) :
  enablePan s = negb (enableRotate s) ->
  (enablePan (fold_left key_step acts s)
   = negb (enableRotate (fold_left key_step acts s)) /\
   chart (fold_left key_step acts s) = chart s /\
   mouseDown (fold_left key_step acts s) = mouseDown s /\
   activePivotX (fold_left key_step acts s) = activePivotX s /\
   activePivotY (fold_left key_step acts s) = activePivotY s) /\
  enablePan (fold_left key_step (acts ++ [KeyDown (mkKeyEvent true)]) s)
  = true /\
  enableRotate (fold_left key_step (acts ++ [KeyUp (mkKeyEvent false)]) s)
  = true.
Proof.
  intros H. split; [|split].
  - revert s H. induction acts as [|a acts IH]; intros s H; cbn [fold_left].
    + auto.
    + destruct (key_step_frame s a) as (C & D & AX & AY & P).
      destruct (IH (key_step s a) (P H)) as (P' & C' & D' & AX' & AY').
      repeat split; congruence.
  - rewrite fold_left_app. reflexivity.
  - rewrite fold_left_app. reflexivity.
Qed.

Lemma keys_switch_the_camera_mode_witness :
  (enablePan (fold_left key_step
                [KeyDown (mkKeyEvent true); KeyUp (mkKeyEvent true)]
                (new_session (scenario None)))
   = negb (enableRotate (fold_left key_step
                [KeyDown (mkKeyEvent true); KeyUp (mkKeyEvent true)]
                (new_session (scenario None)))) /\
   chart (fold_left key_step
            [KeyDown (mkKeyEvent true); KeyUp (mkKeyEvent true)]
            (new_session (scenario None)))
   = chart (new_session (scenario None)) /\
   mouseDown (fold_left key_step
                [KeyDown (mkKeyEvent true); KeyUp (mkKeyEvent true)]
                (new_session (scenario None)))
   = mouseDown (new_session (scenario None)) /\
   activePivotX (fold_left key_step
                   [KeyDown (mkKeyEvent true); KeyUp (mkKeyEvent true)]
                   (new_session (scenario None)))
   = activePivotX (new_session (scenario None)) /\
   activePivotY (fold_left key_step
                   [KeyDown (mkKeyEvent true); KeyUp (mkKeyEvent true)]
                   (new_session (scenario None)))
   = activePivotY (new_session (scenario None))) /\
  enablePan (fold_left key_step
               ([KeyDown (mkKeyEvent true); KeyUp (mkKeyEvent true)]
                ++ [KeyDown (mkKeyEvent true)])
               (new_session (scenario None))) = true /\
  enableRotate (fold_left key_step
                  ([KeyDown (mkKeyEvent true); KeyUp (mkKeyEvent true)]
                   ++ [KeyUp (mkKeyEvent false)])
                  (new_session (scenario None))) = true.
Proof.
  apply (keys_switch_the_camera_mode (new_session (scenario None))
           [KeyDown (mkKeyEvent true); KeyUp (mkKeyEvent true)]).
  reflexivity.
Defined.

Lemma pointer_recorded (s : session) (dims : rect) (ev : mouse_event) :
  mouseX (session_of (_onMouseMoveEvent dims ev s))
  = sub (mul (div (sub (clientX ev) (rect_x dims)) (rect_width dims))
           (Fin 2)) (Fin 1) /\
  mouseY (session_of (_onMouseMoveEvent dims ev s))
  = add (mul (neg (div (sub (clientY ev) (rect_y dims)) (rect_height dims)))
           (Fin 2)) (Fin 1).
Proof.
  unfold _onMouseMoveEvent. cbv zeta. sess_simpl.
  destruct (activePivotX s) as [ax|], (activePivotY s) as [ay|];
    try (split; reflexivity).
  destruct (_ && _)%bool; [|split; reflexivity].
  destruct (mouseDown s); [|split; reflexivity].
  destruct (pivotAt (chart s) ax ay) as [p|]; [|split; reflexivity].
  destruct (_setValue ax ay _ (chart s)); split; reflexivity.
Qed.

(** X20.  Every pointer move, dragging or not, records the pointer in
    normalised device coordinates of the container: for a container of
    positive size and a pointer inside it, [mouse.x] is
    [2 (clientX - left) / width - 1] and [mouse.y] is
    [1 - 2 (clientY - top) / height], both between -1 and 1, with y
    pointing up. *)
Theorem pointer_in_device_coordinates (s : session) (dims : rect)
    (ev : mouse_event) (rx ry rw rh cx cy : Q) :
  rect_x dims = Fin rx -> rect_y dims = Fin ry ->
  rect_width dims = Fin rw -> rect_height dims = Fin rh ->
  clientX ev = Fin cx -> clientY ev = Fin cy ->
  0 < rw -> 0 < rh -> rx <= cx <= rx + rw -> ry <= cy <= ry + rh ->
  exists mx my,
    mouseX (session_of (_onMouseMoveEvent dims ev s)) = Fin mx /\
    mouseY (session_of (_onMouseMoveEvent dims ev s)) = Fin my /\
    mx == 2 * (cx - rx) / rw - 1 /\ my == 1 - 2 * (cy - ry) / rh /\
    -1 <= mx <= 1 /\ -1 <= my <= 1.
Proof.
  intros Hrx Hry Hrw Hrh Hcx Hcy Hw Hh Hx Hy.
  destruct (pointer_recorded s dims ev) as [-> ->].
  rewrite Hrx, Hry, Hrw, Hrh, Hcx, Hcy.
  destruct (sub_Fin cx rx) as [dx [-> Hdx]].
  destruct (div_Fin dx rw) as [fx [-> Hfx]]; [lra|].
  destruct (mul_Fin fx 2) as [gx [-> Hgx]].
  destruct (sub_Fin gx 1) as [mx [-> Hmx]].
  destruct (sub_Fin cy ry) as [dy [-> Hdy]].
  destruct (div_Fin dy rh) as [fy [-> Hfy]]; [lra|].
  assert (neg (Fin fy) = Fin (Qred (- fy))) as -> by reflexivity.
  destruct (mul_Fin (Qred (- fy)) 2) as [gy [-> Hgy]].
  destruct (add_Fin gy 1) as [my [-> Hmy]].
  rewrite Qred_correct in Hgy.
  assert (Fx : 0 <= fx /\ fx <= 1).
  { rewrite Hfx, Hdx. split.
    - apply Qle_shift_div_l; lra.
    - apply Qle_shift_div_r; lra. }
  assert (Fy : 0 <= fy /\ fy <= 1).
  { rewrite Hfy, Hdy. split.
    - apply Qle_shift_div_l; lra.
    - apply Qle_shift_div_r; lra. }
  exists mx, my. split; [reflexivity|]. split; [reflexivity|].
  split; [rewrite Hmx, Hgx, Hfx, Hdx; field; lra|].
  split; [rewrite Hmy, Hgy, Hfy, Hdy; field; lra|].
  split; lra.
Qed.

Lemma pointer_in_device_coordinates_witness :
  exists mx my,
    mouseX (session_of (_onMouseMoveEvent
              (mkRect (Fin 100) (Fin 50) (Fin 800) (Fin 600))
              (mkMouseEvent (Fin 300) (Fin 50) 0)
              (new_session (scenario None)))) = Fin mx /\
    mouseY (session_of (_onMouseMoveEvent
              (mkRect (Fin 100) (Fin 50) (Fin 800) (Fin 600))
              (mkMouseEvent (Fin 300) (Fin 50) 0)
              (new_session (scenario None)))) = Fin my /\
    mx == 2 * (300 - 100) / 800 - 1 /\ my == 1 - 2 * (50 - 50) / 600 /\
    -1 <= mx <= 1 /\ -1 <= my <= 1.
Proof.
  apply (pointer_in_device_coordinates (new_session (scenario None))
           (mkRect (Fin 100) (Fin 50) (Fin 800) (Fin 600))
           (mkMouseEvent (Fin 300) (Fin 50) 0) 100 50 800 600 300 50).
  - reflexivity.
  - reflexivity.
  - reflexivity.
  - reflexivity.
  - reflexivity.
  - reflexivity.
  - reflexivity.
  - reflexivity.
  - split; discriminate.
  - split; discriminate.
Defined.

(** ** The external grid after [setValue] *)

(** X22.  What [setValue] writes is what the external grid shows: after
    [setValue] at a cell of the grid, the external grid has at that cell
    the externalised clamped normalised value, rounded to 5 decimals, and
    its other entries are the ones it had.  On the scenario widget
    [setValue(1, 0, 37.5)] makes the grid [[0, 37.5], [0, 0]]. *)
Theorem setValue_reads_back (w : widget) (val : number) (x y : Z) :
  wf w -> in_bounds w x y ->
  (exists w' out,
     setValue x y val w = Normal w' /\
     externalData w' = inr out /\
     at2 out x y
     = Some (round5 (_convertValueForMatrix w
                       (clamp01 (_convertValueFromMatrix w val)))) /\
     forall x' y', (x, y) <> (x', y') ->
       at2 out x' y' = at2 (externalGrid w) x' y') /\
  (forall cb, exists w2,
     setValue 1 0 (Fin (75 # 2)) (scenario cb) = Normal w2 /\
     externalData w2 = inr [[Fin 0; Fin (75 # 2)]; [Fin 0; Fin 0]]).
Proof.
  intros Hwf Hin. split.
  - pose proof Hwf as [Hm _ _]. pose proof Hin as [Hx Hy].
    destruct (cellAt_in_shape _ _ _ _ _ Hm Hx Hy) as [c0 Hc0].
    destruct (setValue_in_bounds w x y val Hwf Hin)
      as (w' & E & Hwf' & C & M & _).
    exists w', (externalGrid w'). split; [exact E|].
    split; [apply externalData_ok, Hwf'|]. split.
    + unfold externalGrid. rewrite at2_map.
      change (at2 (matrix w') x y) with (cellAt (matrix w') x y).
      rewrite M, (store_at _ _ _ _ _ Hc0). cbn [option_map paint value].
      f_equal. now rewrite (convertFor_config _ _ _ C).
    + intros x' y' Hne. unfold externalGrid. rewrite !at2_map.
      change (at2 (matrix w') x' y') with (cellAt (matrix w') x' y').
      change (at2 (matrix w) x' y') with (cellAt (matrix w) x' y').
      rewrite M, store_elsewhere by exact Hne.
      destruct (cellAt (matrix w) x' y') as [c|]; [|reflexivity].
      cbn [option_map]. now rewrite (convertFor_config _ _ _ C).
  - intros cb.
    destruct (setValue_in_bounds (scenario cb) 1 0 (Fin (75 # 2))
                (scenario_wf _)) as (w2 & E2 & Hwf2 & C2 & M2 & _).
    { split; vm_compute; split; congruence. }
    exists w2. split; [exact E2|].
    rewrite externalData_ok by apply Hwf2. f_equal.
    unfold externalGrid. rewrite M2.
    erewrite map_ext;
      [|intros r; apply map_ext; intros c1;
        rewrite (convertFor_config _ _ _ C2); reflexivity].
    vm_compute. reflexivity.
Qed.

Lemma setValue_reads_back_witness :
  (exists w' out,
     setValue 1 0 (Fin (1234567 # 100000000)) (scenario None) = Normal w' /\
     externalData w' = inr out /\
     at2 out 1 0
     = Some (round5 (_convertValueForMatrix (scenario None)
                       (clamp01 (_convertValueFromMatrix (scenario None)
                                   (Fin (1234567 # 100000000)))))) /\
     forall x' y', (1%Z, 0%Z) <> (x', y') ->
       at2 out x' y' = at2 (externalGrid (scenario None)) x' y') /\
  (forall cb, exists w2,
     setValue 1 0 (Fin (75 # 2)) (scenario cb) = Normal w2 /\
     externalData w2 = inr [[Fin 0; Fin (75 # 2)]; [Fin 0; Fin 0]]).
Proof.
  apply (setValue_reads_back (scenario None) (Fin (1234567 # 100000000)) 1 0).
  - apply scenario_wf.
  - split; vm_compute; split; congruence.
Defined.
